(** * fusionsite: the objective function, the grid search and the sweep

    A shallow embedding of [fusionsite.py]: [fusion], [find_best_parameters]
    and [create_parameter_impact_plots].

    Scalars are IEEE-754 binary64 values with the arithmetic of numpy's
    [float64]: the ranges of the grid search and the multipliers of the sweep
    are built with [np.linspace], so no operation on them raises; an
    overflow gives an infinity, [0/0] and [inf - inf] give NaN, and every
    ordered comparison with NaN is false.  Rocq's primitive floats are
    exactly these values and operations.  Plain Python floats differ in one
    point only, a zero divisor raises [ZeroDivisionError]; the two calls
    that pass them take [tau] from a slider bounded below by [0.01]
    (line 81) and as the constant [0.1] (line 109). *)

From Stdlib Require Import Floats ZArith QArith Qabs List String Bool Lia.
Import ListNotations.

Set Warnings "-inexact-float".

#[local] Open Scope float_scope.

(** ** The objective function *)

(** [fusion], lines 6-11, with the source's four intermediate names. *)
Definition fusion (n T E tau : float) : float :=
  let reactivity := n * T in
  let reaction_rate := reactivity * E in
  let energy_loss := n * T / tau in
  let net_energy_output := reaction_rate - energy_loss in
  net_energy_output.

(** ** The grid search *)

(** A Python dict with string keys, in insertion order; [{}] is [[]]. *)
Definition dict : Type := list (string * float).

(** The dict literal of line 24. *)
Definition params_dict (n T E tau : float) : dict :=
  [("n"%string, n); ("T"%string, T); ("E"%string, E); ("tau"%string, tau)].

(** The two locals the four loops share. *)
Record search_state : Type := mkSearch {
  max_output : float;
  best_params : dict
}.

(** Lines 21-24: one evaluation and the strict comparison [output > max_output]. *)
Definition visit (st : search_state) (n T E tau : float) : search_state :=
  let output := fusion n T E tau in
  if max_output st <? output
  then mkSearch output (params_dict n T E tau)
  else st.

(** Lines 15-16. *)
Definition search_init : search_state := mkSearch neg_infinity [].

(** Lines 17-20: the four nested loops, outermost [n], innermost [tau]. *)
Definition search_loops (n_range T_range E_range tau_range : list float)
    (st0 : search_state) : search_state :=
  fold_left (fun st n =>
    fold_left (fun st T =>
      fold_left (fun st E =>
        fold_left (fun st tau => visit st n T E tau) tau_range st)
      E_range st)
    T_range st)
  n_range st0.

(** [find_best_parameters], lines 14-25. *)
Definition find_best_parameters (n_range T_range E_range tau_range : list float)
    : dict * float :=
  let st := search_loops n_range T_range E_range tau_range search_init in
  (best_params st, max_output st).

(** ** The sweep *)

(** [np.arange(0, num)] as float64: the integers [0 .. num-1]. *)
Definition arange (num : nat) : list float :=
  map (fun i => of_uint63 (Uint63.of_Z (Z.of_nat i))) (seq 0 num).

(** Replace the last entry of a list ([y[-1] = v]); nothing on [[]]. *)
Fixpoint set_last (y : list float) (v : float) : list float :=
  match y with
  | [] => []
  | [_] => [v]
  | a :: y' => a :: set_last y' v
  end.

(** numpy's [linspace(start, stop, num)] with its default [endpoint=True]
    (a library function, not part of the repository): [step] is
    [(stop - start) / (num - 1)], entry [i] is [i * step + start], and the
    last entry is then overwritten with [stop] itself. *)
Definition linspace (start stop : float) (num : nat) : list float :=
  let div := of_uint63 (Uint63.of_Z (Z.of_nat (num - 1))) in
  let delta := stop - start in
  let y := arange num in
  let y :=
    if 0 <? div then
      let step := delta / div in
      if step =? 0
      then map (fun v => v / div * delta) y
      else map (fun v => v * step) y
    else map (fun v => v * delta) y in
  let y := map (fun v => v + start) y in
  if (1 <? num)%nat then set_last y stop else y.

(** What the returned plotly figure holds: the scatter trace and the three
    layout texts. *)
Record figure : Type := mkFigure {
  scatter_x : list float;
  scatter_y : list float;
  title : string;
  xaxis_title : string;
  yaxis_title : string
}.

(** Line 29. *)
Definition param_range : list float := linspace 0.1 2 100.

(** A [for val in param_range: outputs.append(f(val))] loop, from the
    list [outputs] built so far. *)
Definition append_loop (f : float -> float) (vals outputs : list float)
    : list float :=
  fold_left (fun outputs val => outputs ++ [f val]) vals outputs.

(** [create_parameter_impact_plots], lines 28-53. *)
Definition create_parameter_impact_plots (selected_parameter : string)
    (n T E tau : float) : figure :=
  let outputs : list float := [] in
  let '(outputs, x_label) :=
    if String.eqb selected_parameter "Particle Density" then
      (append_loop (fun val => fusion (val * n) T E tau) param_range outputs,
       "Particle Density Multiplier"%string)
    else if String.eqb selected_parameter "Temperature" then
      (append_loop (fun val => fusion n (val * T) E tau) param_range outputs,
       "Temperature Multiplier"%string)
    else if String.eqb selected_parameter "Energy Release" then
      (append_loop (fun val => fusion n T (val * E) tau) param_range outputs,
       "Energy Release Multiplier"%string)
    else
      (append_loop (fun val => fusion n T E (val * tau)) param_range outputs,
       "Confinement Time Multiplier"%string) in
  mkFigure param_range outputs
           ("Energy Output vs. " ++ selected_parameter)
           x_label
           "Energy Output".

(** The (multiplier, output) pairs of a figure's trace. *)
Definition sweep_points (fig : figure) : list (float * float) :=
  combine (scatter_x fig) (scatter_y fig).

(** ** Points of the grid, for the statements *)

(** A point of the parameter space, in the order [n], [T], [E], [tau]. *)
Definition point : Type := (float * float * float * float)%type.

(** The objective function at a point, and the dict the search stores for it. *)
Definition eval (p : point) : float :=
  let '(n, T, E, tau) := p in fusion n T E tau.

Definition point_dict (p : point) : dict :=
  let '(n, T, E, tau) := p in params_dict n T E tau.

Definition visit_point (st : search_state) (p : point) : search_state :=
  let '(n, T, E, tau) := p in visit st n T E tau.

(** The Cartesian product of the four ranges, listed in the order in which
    the nested loops reach its points. *)
Definition grid (n_range T_range E_range tau_range : list float) : list point :=
  flat_map (fun n =>
    flat_map (fun T =>
      flat_map (fun E =>
        map (fun tau => (n, T, E, tau)) tau_range)
      E_range)
    T_range)
  n_range.

(** A float is a number: it is not NaN (the only float that differs from
    itself). *)
Definition is_number (x : float) : bool := x =? x.

(** The points the loops reach before [(n, T, E, tau)], when the ranges
    split as [a1 ++ n :: _], [b1 ++ T :: _], [c1 ++ E :: _] and
    [d1 ++ tau :: _]: those that differ first in an earlier entry of a
    range, the outer ranges counting first. *)
Definition reached_before (a1 b1 c1 d1 : list float) (n T E : float)
    (T_range E_range tau_range : list float) (q : point) : Prop :=
  let '(n', T', E', tau') := q in
  (In n' a1 /\ In T' T_range /\ In E' E_range /\ In tau' tau_range)
  \/ (n' = n /\ In T' b1 /\ In E' E_range /\ In tau' tau_range)
  \/ (n' = n /\ T' = T /\ In E' c1 /\ In tau' tau_range)
  \/ (n' = n /\ T' = T /\ E' = E /\ In tau' d1).

(** The four entries of the selectbox that feeds [selected_parameter]
    (line 103), and the text of each. *)
Inductive parameter : Type :=
  | ParticleDensity | Temperature | EnergyRelease | ConfinementTime.

Definition selector_name (p : parameter) : string :=
  match p with
  | ParticleDensity => "Particle Density"
  | Temperature => "Temperature"
  | EnergyRelease => "Energy Release"
  | ConfinementTime => "Confinement Time"
  end.

(** The objective function with the selected parameter replaced by [m]
    times its value and the other three unchanged: what the specification
    pairs with the multiplier [m]. *)
Definition scaled_output (p : parameter) (n T E tau m : float) : float :=
  match p with
  | ParticleDensity => fusion (m * n) T E tau
  | Temperature => fusion n (m * T) E tau
  | EnergyRelease => fusion n T (m * E) tau
  | ConfinementTime => fusion n T E (m * tau)
  end.

(** Every entry is less than the next one. *)
Fixpoint strictly_ascending (l : list float) : bool :=
  match l with
  | a :: ((b :: _) as l') => (a <? b) && strictly_ascending l'
  | _ => true
  end.

(** The rational number a finite binary64 value stands for
    (zero for the infinities and NaN). *)
Definition float_to_Q (x : float) : Q :=
  match Prim2SF x with
  | S754_finite s m e =>
      (inject_Z (if s then Z.neg m else Z.pos m) * Qpower 2 e)%Q
  | _ => 0%Q
  end.

(** Entry [i] of 100 equally spaced values over [[0.1, 2.0]], as a rational:
    [0.1 + i * (2.0 - 0.1) / 99]. *)
Definition ideal_multiplier (i : nat) : Q :=
  (1 # 10) + inject_Z (Z.of_nat i) * ((2 - (1 # 10)) / 99).

(** The entries of [l] are within [2^-52] of the equally spaced values. *)
Definition equally_spaced (l : list float) : bool :=
  forallb (fun i =>
             Qle_bool (Qabs (float_to_Q (nth i l 0%float) - ideal_multiplier i))
                      (1 # 2 ^ 52))
          (seq 0 (List.length l)).

(** ** The pages of [main] that call the search and the sweep *)

(** Lines 92-96, the Optimization page: ten values per parameter between
    the two ends of each range slider, the density ends scaled by [1e20],
    and the search over them. *)
Definition optimization_page
    (n_min n_max T_min T_max E_min E_max tau_min tau_max : float)
    : dict * float :=
  let n_range := linspace (n_min * 1e20) (n_max * 1e20) 10 in
  let T_range := linspace T_min T_max 10 in
  let E_range := linspace E_min E_max 10 in
  let tau_range := linspace tau_min tau_max 10 in
  find_best_parameters n_range T_range E_range tau_range.

(** Lines 102-109, the Parameter Impact Analysis page: the selectbox entry
    and the four fixed values. *)
Definition impact_page (p : parameter) : figure :=
  let n_value := 1e20 in
  let T_value := 15000 in
  let E_value := 17.6 in
  let tau_value := 0.1 in
  create_parameter_impact_plots (selector_name p) n_value T_value E_value
                                tau_value.

(** ** Further notions for the statements *)

(** Of two results of the search, the second if its value is strictly
    greater, the first otherwise. *)
Definition better (r1 r2 : dict * float) : dict * float :=
  if snd r1 <? snd r2 then r2 else r1.

(** Every entry is neither NaN nor an infinity. *)
Definition all_finite (l : list float) : bool := forallb is_finite l.

(** ** The three functions over the Python heap

    The same three functions with the objects they create and mutate made
    explicit: a heap of mutable objects threaded through every statement.
    Allocation ([{}], [[]], a dict display, [np.linspace], [go.Figure])
    adds an object at a fresh address; [outputs.append] and
    [fig.update_layout] overwrite the object at an address; iteration reads
    one.  The module-level names ([np], [go], [fusion]) are bound once by
    the [import] and [def] statements and assigned nowhere in the file, so
    they are not part of the state. *)

Definition addr : Type := nat.

Inductive object : Type :=
  | PyList (items : list float)
  | PyArray (items : list float)
  | PyDict (items : dict)
  | PyFigure (fig : figure).

Definition heap : Type := list object.

(** A computation on the heap; [None] is a Python exception (a name that
    is no sequence where one is iterated, an address that holds nothing). *)
Definition py (A : Type) : Type := heap -> option (A * heap).

Definition py_ret {A : Type} (a : A) : py A := fun h => Some (a, h).

Definition py_bind {A B : Type} (m : py A) (k : A -> py B) : py B :=
  fun h => match m h with
           | Some (a, h') => k a h'
           | None => None
           end.

Definition py_raise {A : Type} : py A := fun _ => None.

Notation "x <- m ;; k" := (py_bind m (fun x => k))
  (at level 61, m at next level, right associativity).

(** A new object, at the first address not in use. *)
Definition py_new (o : object) : py addr :=
  fun h => Some (List.length h, h ++ [o]).

Definition py_load (a : addr) : py object :=
  fun h => match nth_error h a with
           | Some o => Some (o, h)
           | None => None
           end.

Fixpoint heap_set (a : addr) (o : object) (h : heap) : heap :=
  match h, a with
  | [], _ => []
  | _ :: h', O => o :: h'
  | x :: h', S a' => x :: heap_set a' o h'
  end.

Definition py_store (a : addr) (o : object) : py unit :=
  fun h => match nth_error h a with
           | Some _ => Some (tt, heap_set a o h)
           | None => None
           end.

(** The entries of a list or of an array. *)
Definition seq_items (o : object) : option (list float) :=
  match o with
  | PyList l | PyArray l => Some l
  | _ => None
  end.

(** What [for x in obj] iterates over. *)
Definition py_iter (a : addr) : py (list float) :=
  o <- py_load a ;;
  match seq_items o with
  | Some l => py_ret l
  | None => py_raise
  end.

(** [for x in obj: body], the locals the body assigns as the state [s].
    No loop body in the file mutates the sequence its loop iterates, so
    the entries are those read when the loop starts. *)
Fixpoint py_for_each {S : Type} (l : list float) (body : float -> S -> py S)
    (s : S) : py S :=
  match l with
  | [] => py_ret s
  | x :: l' => s' <- body x s ;; py_for_each l' body s'
  end.

Definition py_for {S : Type} (a : addr) (body : float -> S -> py S) (s : S)
    : py S :=
  l <- py_iter a ;; py_for_each l body s.

(** [lst.append(v)]. *)
Definition py_append (a : addr) (v : float) : py unit :=
  o <- py_load a ;;
  match o with
  | PyList l => py_store a (PyList (l ++ [v]))
  | _ => py_raise
  end.

(** [np.linspace(start, stop, num)]: a new array. *)
Definition py_linspace (start stop : float) (num : nat) : py addr :=
  py_new (PyArray (linspace start stop num)).

(** [go.Figure(data=go.Scatter(x=xs, y=ys))]: a new figure holding the
    entries of the two sequences, its layout texts not set yet. *)
Definition py_figure (xs ys : addr) : py addr :=
  x <- py_iter xs ;;
  y <- py_iter ys ;;
  py_new (PyFigure (mkFigure x y "" "" "")).

(** [fig.update_layout(title=.., xaxis_title=.., yaxis_title=..)]. *)
Definition py_update_layout (a : addr) (t x y : string) : py unit :=
  o <- py_load a ;;
  match o with
  | PyFigure f =>
      py_store a (PyFigure (mkFigure (scatter_x f) (scatter_y f) t x y))
  | _ => py_raise
  end.

(** [fusion], lines 6-11: arithmetic on its arguments only. *)
Definition py_fusion (n T E tau : float) : py float :=
  let reactivity := n * T in
  let reaction_rate := reactivity * E in
  let energy_loss := n * T / tau in
  let net_energy_output := reaction_rate - energy_loss in
  py_ret net_energy_output.

(** The locals of [find_best_parameters] that the loops assign. *)
Record search_frame : Type := mkFrame {
  frame_max_output : float;
  frame_best_params : addr
}.

(** Lines 21-24. *)
Definition py_visit (n T E tau : float) (fr : search_frame) : py search_frame :=
  output <- py_fusion n T E tau ;;
  if frame_max_output fr <? output then
    best_params <- py_new (PyDict (params_dict n T E tau)) ;;
    py_ret (mkFrame output best_params)
  else py_ret fr.

(** Lines 17-20, on the addresses of the four ranges. *)
Definition py_search_loops (n_range T_range E_range tau_range : addr)
    (fr : search_frame) : py search_frame :=
  py_for n_range (fun n fr =>
    py_for T_range (fun T fr =>
      py_for E_range (fun E fr =>
        py_for tau_range (fun tau fr => py_visit n T E tau fr) fr)
      fr)
    fr)
  fr.

(** [find_best_parameters], lines 14-25. *)
Definition py_find_best_parameters (n_range T_range E_range tau_range : addr)
    : py (addr * float) :=
  let max_output := neg_infinity in
  best_params <- py_new (PyDict []) ;;
  fr <- py_search_loops n_range T_range E_range tau_range
          (mkFrame max_output best_params) ;;
  py_ret (frame_best_params fr, frame_max_output fr).

(** Lines 32-47: the loop of the selected branch, appending to [outputs],
    and the label it chooses. *)
Definition py_sweep_branch (selected_parameter : string) (n T E tau : float)
    (param_range outputs : addr) : py string :=
  if String.eqb selected_parameter "Particle Density" then
    _ <- py_for param_range (fun val _ =>
           output <- py_fusion (val * n) T E tau ;;
           py_append outputs output) tt ;;
    py_ret "Particle Density Multiplier"%string
  else if String.eqb selected_parameter "Temperature" then
    _ <- py_for param_range (fun val _ =>
           output <- py_fusion n (val * T) E tau ;;
           py_append outputs output) tt ;;
    py_ret "Temperature Multiplier"%string
  else if String.eqb selected_parameter "Energy Release" then
    _ <- py_for param_range (fun val _ =>
           output <- py_fusion n T (val * E) tau ;;
           py_append outputs output) tt ;;
    py_ret "Energy Release Multiplier"%string
  else
    _ <- py_for param_range (fun val _ =>
           output <- py_fusion n T E (val * tau) ;;
           py_append outputs output) tt ;;
    py_ret "Confinement Time Multiplier"%string.

(** [create_parameter_impact_plots], lines 28-53. *)
Definition py_create_parameter_impact_plots (selected_parameter : string)
    (n T E tau : float) : py addr :=
  param_range <- py_linspace 0.1 2 100 ;;
  outputs <- py_new (PyList []) ;;
  x_label <- py_sweep_branch selected_parameter n T E tau param_range
               outputs ;;
  fig <- py_figure param_range outputs ;;
  _ <- py_update_layout fig ("Energy Output vs. " ++ selected_parameter)
                        x_label "Energy Output" ;;
  py_ret fig.

(** The sequence an address holds. *)
Definition holds_seq (h : heap) (a : addr) (l : list float) : Prop :=
  exists o, nth_error h a = Some o /\ seq_items o = Some l.

(** The dict and value a returned [(best_params, max_output)] denotes. *)
Definition search_result (h : heap) (r : addr * float) : option (dict * float) :=
  match nth_error h (fst r) with
  | Some (PyDict d) => Some (d, snd r)
  | _ => None
  end.

(** The figure a returned address denotes. *)
Definition figure_result (h : heap) (a : addr) : option figure :=
  match nth_error h a with
  | Some (PyFigure f) => Some f
  | _ => None
  end.

(** Every object of [h] is still in [h'], at its address and unchanged. *)
Definition preserved (h h' : heap) : Prop := exists new, h' = h ++ new.

(** The locals and the heap of a running search stand for a state of the
    loops: the heap has grown from [h0], the dict at [best_params] is the
    running best point, and it is not an object of [h0]. *)
Definition search_rel (h0 : heap) (fr : search_frame) (h : heap)
    (st : search_state) : Prop :=
  preserved h0 h
  /\ nth_error h (frame_best_params fr) = Some (PyDict (best_params st))
  /\ frame_max_output fr = max_output st
  /\ (List.length h0 <= frame_best_params fr)%nat.

(** A heap that holds four ranges, and the heap a first search over them
    leaves. *)
Definition ranges_heap : heap :=
  [PyArray [1e20; 2e20]; PyArray [5000; 10000]; PyList [15; 20];
   PyArray [0.05; 0.1]].

Definition ranges_heap_after : heap :=
  match py_find_best_parameters 0%nat 1%nat 2%nat 3%nat ranges_heap with
  | Some (_, h) => h
  | None => []
  end.

(** * Properties *)

(** ** The order of binary64 values

    The comparisons are specified on [spec_float]; every fact below is a
    case analysis on that specification. *)

Ltac sf_order :=
  unfold SFltb, SFleb, SFeqb;
  repeat match goal with
         | x : spec_float |- _ => destruct x as [[] | [] | | [] ? ?]
         end;
  simpl; try easy;
  change (Pos.compare_cont Eq) with Pos.compare;
  repeat match goal with
         | |- context [Z.compare ?a ?b] => destruct (Z.compare_spec a b)
         | |- context [Pos.compare ?a ?b] => destruct (Pos.compare_spec a b)
         end;
  simpl; try easy; try lia.

Lemma SFltb_trans (a b c : spec_float) :
  SFltb a b = true -> SFltb b c = true -> SFltb a c = true.
Proof. sf_order. Qed.

Lemma SFltb_leb_trans (a b c : spec_float) :
  SFltb a b = true -> SFleb b c = true -> SFltb a c = true.
Proof. sf_order. Qed.

Lemma SFltb_leb_false (a b : spec_float) :
  SFltb a b = true -> SFleb b a = false.
Proof. sf_order. Qed.

Lemma SFleb_false_ltb_false (a b : spec_float) :
  SFleb a b = false -> SFltb a b = false.
Proof. sf_order. Qed.

Lemma SFleb_false_eqb_false (a b : spec_float) :
  SFleb a b = false -> SFeqb b a = false.
Proof. sf_order. Qed.

Lemma SFltb_numbers (a b : spec_float) :
  SFltb a b = true -> SFeqb a a = true /\ SFeqb b b = true.
Proof. sf_order. Qed.

Lemma SFltb_irrefl (a : spec_float) : SFltb a a = false.
Proof. sf_order. Qed.

Lemma SFleb_total (a b : spec_float) :
  SFeqb a a = true -> SFeqb b b = true -> SFltb a b = false -> SFleb b a = true.
Proof. sf_order. Qed.

Lemma SFltb_neg_infinity (a : spec_float) :
  SFltb a (S754_infinity true) = false.
Proof. sf_order. Qed.

Lemma SFltb_nan (a : spec_float) : SFltb a S754_nan = false.
Proof. sf_order. Qed.

Lemma SFltb_below_infinity (a : spec_float) :
  SFeqb a a = true -> a <> S754_infinity false ->
  SFltb a (S754_infinity false) = true.
Proof. sf_order. Qed.

Lemma SFltb_above_neg_infinity (a : spec_float) :
  SFeqb a a = true -> a <> S754_infinity true ->
  SFltb (S754_infinity true) a = true.
Proof. sf_order. Qed.

Lemma SFeqb_false_nan (a : spec_float) : SFeqb a a = false -> a = S754_nan.
Proof. sf_order. Qed.

Lemma Prim2SF_neg_infinity : Prim2SF neg_infinity = S754_infinity true.
Proof. reflexivity. Qed.

Lemma Prim2SF_infinity : Prim2SF infinity = S754_infinity false.
Proof. reflexivity. Qed.

Lemma Prim2SF_nan : Prim2SF nan = S754_nan.
Proof. reflexivity. Qed.

Lemma Prim2SF_inj (x y : float) : Prim2SF x = Prim2SF y -> x = y.
Proof.
  intros H. rewrite <- (SF2Prim_Prim2SF x), <- (SF2Prim_Prim2SF y).
  now rewrite H.
Qed.

Section FloatOrder.

Variables a b c : float.

Lemma ltb_trans : (a <? b) = true -> (b <? c) = true -> (a <? c) = true.
Proof. rewrite !ltb_spec. apply SFltb_trans. Qed.

Lemma ltb_leb_trans : (a <? b) = true -> (b <=? c) = true -> (a <? c) = true.
Proof. rewrite !ltb_spec, leb_spec. apply SFltb_leb_trans. Qed.

Lemma ltb_leb_false : (a <? b) = true -> (b <=? a) = false.
Proof. rewrite ltb_spec, leb_spec. apply SFltb_leb_false. Qed.

Lemma leb_false_ltb_false : (a <=? b) = false -> (a <? b) = false.
Proof. rewrite ltb_spec, leb_spec. apply SFleb_false_ltb_false. Qed.

Lemma leb_false_eqb_false : (a <=? b) = false -> (b =? a) = false.
Proof. rewrite FloatAxioms.eqb_spec, leb_spec. apply SFleb_false_eqb_false. Qed.

Lemma ltb_numbers : (a <? b) = true -> is_number a = true /\ is_number b = true.
Proof. unfold is_number. rewrite ltb_spec, !FloatAxioms.eqb_spec. apply SFltb_numbers. Qed.

Lemma ltb_irrefl : (a <? a) = false.
Proof. rewrite ltb_spec. apply SFltb_irrefl. Qed.

Lemma leb_total :
  is_number a = true -> is_number b = true -> (a <? b) = false -> (b <=? a) = true.
Proof. unfold is_number. rewrite ltb_spec, leb_spec, !FloatAxioms.eqb_spec. apply SFleb_total. Qed.

Lemma ltb_neg_infinity : (a <? neg_infinity) = false.
Proof. rewrite ltb_spec, Prim2SF_neg_infinity. apply SFltb_neg_infinity. Qed.

Lemma ltb_nan : (a <? nan) = false.
Proof. rewrite ltb_spec, Prim2SF_nan. apply SFltb_nan. Qed.

Lemma ltb_below_infinity :
  is_number a = true -> a <> infinity -> (a <? infinity) = true.
Proof.
  unfold is_number. rewrite ltb_spec, FloatAxioms.eqb_spec, Prim2SF_infinity.
  intros Hn Hi. apply SFltb_below_infinity; [exact Hn|].
  intros Heq. apply Hi, Prim2SF_inj. now rewrite Heq.
Qed.

Lemma ltb_above_neg_infinity :
  is_number a = true -> a <> neg_infinity -> (neg_infinity <? a) = true.
Proof.
  unfold is_number. rewrite ltb_spec, FloatAxioms.eqb_spec, Prim2SF_neg_infinity.
  intros Hn Hi. apply SFltb_above_neg_infinity; [exact Hn|].
  intros Heq. apply Hi, Prim2SF_inj. now rewrite Heq.
Qed.

Lemma not_number_nan : is_number a = false -> a = nan.
Proof.
  unfold is_number. rewrite FloatAxioms.eqb_spec. intros H.
  apply Prim2SF_inj. rewrite Prim2SF_nan. now apply SFeqb_false_nan.
Qed.

End FloatOrder.

(** To exceed negative infinity is to be a number other than negative
    infinity: a finite value or positive infinity. *)
Lemma above_neg_infinity_iff (x : float) :
  (neg_infinity <? x) = true <-> is_number x = true /\ x <> neg_infinity.
Proof.
  split.
  - intros H. split; [now apply (ltb_numbers neg_infinity)|].
    intros ->. rewrite ltb_irrefl in H. discriminate.
  - intros [Hn Hne]. now apply ltb_above_neg_infinity.
Qed.

Lemma is_number_false_iff (x : float) : is_number x = false <-> x = nan.
Proof.
  split; [apply not_number_nan|]. intros ->. reflexivity.
Qed.

(** ** The loops as one pass over the grid *)

Lemma fold_left_flat_map {A B S : Type} (f : S -> B -> S) (g : A -> list B)
    (l : list A) (s : S) :
  fold_left f (flat_map g l) s = fold_left (fun s x => fold_left f (g x) s) l s.
Proof.
  revert s. induction l as [|x l IH]; intros s; simpl; [reflexivity|].
  now rewrite fold_left_app, IH.
Qed.

Lemma fold_left_map_list {A B S : Type} (f : S -> B -> S) (g : A -> B)
    (l : list A) (s : S) :
  fold_left f (map g l) s = fold_left (fun s x => f s (g x)) l s.
Proof.
  revert s. induction l as [|x l IH]; intros s; simpl; [reflexivity|apply IH].
Qed.

Lemma fold_left_pointwise {A S : Type} (f g : S -> A -> S) (l : list A) (s : S) :
  (forall s x, f s x = g s x) -> fold_left f l s = fold_left g l s.
Proof.
  intros Hfg. revert s. induction l as [|x l IH]; intros s; simpl;
    [reflexivity|]. now rewrite Hfg, IH.
Qed.

Lemma search_loops_grid (n_range T_range E_range tau_range : list float)
    (st : search_state) :
  search_loops n_range T_range E_range tau_range st
  = fold_left visit_point (grid n_range T_range E_range tau_range) st.
Proof.
  unfold search_loops, grid.
  rewrite fold_left_flat_map. apply fold_left_pointwise; intros s1 n.
  rewrite fold_left_flat_map. apply fold_left_pointwise; intros s2 T.
  rewrite fold_left_flat_map. apply fold_left_pointwise; intros s3 E.
  now rewrite fold_left_map_list.
Qed.

Lemma in_grid (n_range T_range E_range tau_range : list float)
    (n T E tau : float) :
  In (n, T, E, tau) (grid n_range T_range E_range tau_range)
  <-> In n n_range /\ In T T_range /\ In E E_range /\ In tau tau_range.
Proof.
  unfold grid. split.
  - intros H.
    apply in_flat_map in H as (n' & Hn & H).
    apply in_flat_map in H as (T' & HT & H).
    apply in_flat_map in H as (E' & HE & H).
    apply in_map_iff in H as (tau' & Heq & Htau).
    inversion Heq; subst. auto.
  - intros (Hn & HT & HE & Htau).
    apply in_flat_map; exists n; split; [assumption|].
    apply in_flat_map; exists T; split; [assumption|].
    apply in_flat_map; exists E; split; [assumption|].
    apply in_map_iff; exists tau; auto.
Qed.

Lemma visit_point_eq (st : search_state) (p : point) :
  visit_point st p
  = if max_output st <? eval p then mkSearch (eval p) (point_dict p) else st.
Proof. destruct p as [[[n T] E] tau]. reflexivity. Qed.

(** What a pass over any list of points leaves in the two locals: either
    nothing beat the running maximum, or the state is that of the first
    point of the list that no other point of the list beats. *)
Lemma search_fold (pts : list point) (st : search_state) :
  (fold_left visit_point pts st = st
   /\ forall q, In q pts -> (max_output st <? eval q) = false)
  \/ exists l1 p l2,
       pts = l1 ++ p :: l2
       /\ fold_left visit_point pts st = mkSearch (eval p) (point_dict p)
       /\ (max_output st <? eval p) = true
       /\ (forall q, In q l1 -> (eval p <=? eval q) = false)
       /\ (forall q, In q l2 -> (eval p <? eval q) = false).
Proof.
  revert st. induction pts as [|q pts IH]; intros st.
  - left. split; [reflexivity|]. intros q [].
  - simpl. rewrite visit_point_eq.
    destruct (max_output st <? eval q) eqn:Hq.
    + right.
      destruct (IH (mkSearch (eval q) (point_dict q)))
        as [[Hst Hno] | (l1 & p & l2 & Hpts & Hst & Hp & Hl1 & Hl2)];
        simpl in *.
      * exists [], q, pts. repeat split; auto. intros r [].
      * exists (q :: l1), p, l2. subst pts. repeat split; auto.
        -- eapply ltb_trans; eassumption.
        -- intros r [<- | Hr]; [|now apply Hl1].
           now apply ltb_leb_false.
    + destruct (IH st)
        as [[Hst Hno] | (l1 & p & l2 & Hpts & Hst & Hp & Hl1 & Hl2)].
      * left. split; [assumption|]. intros r [<- | Hr]; auto.
      * right. exists (q :: l1), p, l2. subst pts. repeat split; auto.
        intros r [<- | Hr]; [|now apply Hl1].
        destruct (eval p <=? eval q) eqn:Hle; [|reflexivity].
        rewrite (ltb_leb_trans _ _ _ Hp Hle) in Hq. discriminate.
Qed.

(** The two ways a call of [find_best_parameters] ends. *)
Lemma find_best_parameters_cases (n_range T_range E_range tau_range : list float) :
  let pts := grid n_range T_range E_range tau_range in
  (find_best_parameters n_range T_range E_range tau_range = ([], neg_infinity)
   /\ forall q, In q pts -> (neg_infinity <? eval q) = false)
  \/ exists l1 p l2,
       pts = l1 ++ p :: l2
       /\ find_best_parameters n_range T_range E_range tau_range
          = (point_dict p, eval p)
       /\ (neg_infinity <? eval p) = true
       /\ (forall q, In q l1 -> (eval p <=? eval q) = false)
       /\ (forall q, In q l2 -> (eval p <? eval q) = false).
Proof.
  intros pts. unfold find_best_parameters. rewrite search_loops_grid.
  fold pts.
  destruct (search_fold pts search_init)
    as [[Hst Hno] | (l1 & p & l2 & Hpts & Hst & Hp & Hl1 & Hl2)];
    rewrite Hst.
  - left. split; [reflexivity | exact Hno].
  - right. exists l1, p, l2. repeat split; assumption.
Qed.

Lemma point_dict_nonempty (p : point) : point_dict p <> [].
Proof. destruct p as [[[n T] E] tau]. discriminate. Qed.

(** No point of the list beats the point the search kept. *)
Lemma kept_point_maximal (l1 l2 : list point) (p q : point) :
  (neg_infinity <? eval p) = true ->
  (forall r, In r l1 -> (eval p <=? eval r) = false) ->
  (forall r, In r l2 -> (eval p <? eval r) = false) ->
  In q (l1 ++ p :: l2) -> (eval p <? eval q) = false.
Proof.
  intros Hp Hl1 Hl2 Hq. apply in_app_or in Hq as [Hq | [<- | Hq]].
  - now apply leb_false_ltb_false, Hl1.
  - apply ltb_irrefl.
  - now apply Hl2.
Qed.

(** ** The objective function *)

(** C1: for all [n], [T], [E], [tau] (in particular the finite ones with
    [tau] different from zero), [fusion n T E tau] is [n*T*E - n*T/tau],
    each operation being the binary64 one, evaluated in the order of the
    source's intermediate values. *)
Theorem fusion_formula (n T E tau : float) :
  fusion n T E tau = n * T * E - n * T / tau.
Proof. reflexivity. Qed.

(** C8, as stated: the value of [fusion] at the scenario is not the binary64
    value that the decimal [1.14e25] denotes. *)
Lemma fusion_scenario_not_exact : fusion 1e20 15000 17.6 0.1 <> 1.14e25.
Proof.
  intros H. apply (f_equal Prim2SF) in H. vm_compute in H. discriminate.
Qed.

(** C8, amended: at [n = 1e20], [T = 15000], [E = 17.6], [tau = 0.1] the
    reaction rate is [2.6400000000000003e25], the energy loss is
    [1.4999999999999998e25] and [fusion] returns [1.1400000000000005e25]:
    the binary64 value two units in the last place above the one nearest to
    [1.14e25], hence within a relative error of [1e-15] of it. *)
Theorem fusion_scenario :
  1e20 * 15000 * 17.6 = 2.6400000000000003e25
  /\ 1e20 * 15000 / 0.1 = 1.4999999999999998e25
  /\ fusion 1e20 15000 17.6 0.1 = 1.1400000000000005e25
  /\ Prim2SF 1.14e25 = S754_finite false 5308538675308228 31
  /\ Prim2SF (fusion 1e20 15000 17.6 0.1)
     = S754_finite false (5308538675308228 + 2) 31
  /\ (abs (fusion 1e20 15000 17.6 0.1 - 1.14e25) <=? 1e-15 * 1.14e25) = true.
Proof. repeat split; vm_compute; reflexivity. Qed.

(** ** The grid search *)

(** The search over the 16 combinations of two values per parameter. *)
Example find_best_parameters_two_by_four :
  find_best_parameters [1e20; 2e20] [5000; 10000] [15; 20] [0.05; 0.1]
  = (params_dict 2e20 10000 20 0.1, fusion 2e20 10000 20 0.1).
Proof. vm_compute. reflexivity. Qed.

(** Points that tie are kept in loop order: all four evaluate to zero. *)
Example find_best_parameters_tie :
  find_best_parameters [0] [1; 2] [3] [4; 5] = (params_dict 0 1 3 4, 0).
Proof. vm_compute. reflexivity. Qed.

(** C10: when [find_best_parameters] returns a non-empty dict, the dict is
    the one of a point [n], [T], [E], [tau] whose components come from the
    corresponding ranges, and the returned value is [fusion] at that point. *)
Theorem find_best_parameters_sound
    (n_range T_range E_range tau_range : list float) (d : dict) (v : float) :
  find_best_parameters n_range T_range E_range tau_range = (d, v) ->
  d <> [] ->
  exists n T E tau,
    d = params_dict n T E tau
    /\ v = fusion n T E tau
    /\ In n n_range /\ In T T_range /\ In E E_range /\ In tau tau_range.
Proof.
  intros Hres Hd.
  destruct (find_best_parameters_cases n_range T_range E_range tau_range)
    as [[Hnone _] | (l1 & p & l2 & Hpts & Hbest & _)].
  - rewrite Hnone in Hres. inversion Hres; subst. now contradiction Hd.
  - rewrite Hbest in Hres. inversion Hres; subst.
    destruct p as [[[n T] E] tau]. exists n, T, E, tau.
    split; [reflexivity|]. split; [reflexivity|].
    apply in_grid. rewrite Hpts. apply in_elt.
Qed.

Lemma find_best_parameters_sound_witness :
  exists n T E tau,
    [("n"%string, 2e20); ("T"%string, 10000); ("E"%string, 20);
     ("tau"%string, 0.1)] = params_dict n T E tau
    /\ 1.9999999999999998e25 = fusion n T E tau
    /\ In n [1e20; 2e20] /\ In T [5000; 10000] /\ In E [15; 20]
    /\ In tau [0.05; 0.1].
Proof.
  apply (find_best_parameters_sound [1e20; 2e20] [5000; 10000] [15; 20]
           [0.05; 0.1]).
  - vm_compute. reflexivity.
  - discriminate.
Defined.

(** C2, as stated: on four one-element ranges of finite positive values
    whose only evaluation overflows to negative infinity, the search returns
    the empty dict, which is no point of the Cartesian product. *)
Lemma find_best_parameters_no_point :
  fusion 1e300 1 1 1e-300 = neg_infinity
  /\ find_best_parameters [1e300] [1] [1] [1e-300] = ([], neg_infinity)
  /\ ~ (exists n T E tau,
          fst (find_best_parameters [1e300] [1] [1] [1e-300])
          = params_dict n T E tau
          /\ In n [1e300] /\ In T [1] /\ In E [1] /\ In tau [1e-300]).
Proof.
  split; [vm_compute; reflexivity|]. split; [vm_compute; reflexivity|].
  intros (n & T & E & tau & H & _). vm_compute in H. discriminate.
Qed.

(** C2, amended: when some point of the Cartesian product evaluates to more
    than negative infinity (that is, to neither NaN nor negative infinity),
    [find_best_parameters] returns a point of the product together with its
    evaluation; no point of the product evaluates to more than that value,
    and the value is greater than or equal to the evaluation at every point
    where the evaluation is a number. *)
Theorem find_best_parameters_maximal
    (n_range T_range E_range tau_range : list float) :
  (exists n0 T0 E0 tau0,
      In n0 n_range /\ In T0 T_range /\ In E0 E_range /\ In tau0 tau_range
      /\ (neg_infinity <? fusion n0 T0 E0 tau0) = true) ->
  exists n T E tau,
    find_best_parameters n_range T_range E_range tau_range
    = (params_dict n T E tau, fusion n T E tau)
    /\ In n n_range /\ In T T_range /\ In E E_range /\ In tau tau_range
    /\ (forall n' T' E' tau',
          In n' n_range -> In T' T_range -> In E' E_range -> In tau' tau_range ->
          (fusion n T E tau <? fusion n' T' E' tau') = false)
    /\ (forall n' T' E' tau',
          In n' n_range -> In T' T_range -> In E' E_range -> In tau' tau_range ->
          is_number (fusion n' T' E' tau') = true ->
          (fusion n' T' E' tau' <=? fusion n T E tau) = true).
Proof.
  intros (n0 & T0 & E0 & tau0 & Hn0 & HT0 & HE0 & Htau0 & Hgt).
  destruct (find_best_parameters_cases n_range T_range E_range tau_range)
    as [[_ Hno] | (l1 & p & l2 & Hpts & Hbest & Hp & Hl1 & Hl2)].
  - specialize (Hno (n0, T0, E0, tau0)). simpl in Hno.
    rewrite Hno in Hgt; [discriminate|]. apply in_grid. auto.
  - assert (Hmax : forall n' T' E' tau',
               In n' n_range -> In T' T_range -> In E' E_range ->
               In tau' tau_range ->
               (eval p <? fusion n' T' E' tau') = false).
    { intros n' T' E' tau' Hn HT HE Htau.
      apply (kept_point_maximal l1 l2 p (n', T', E', tau')); try assumption.
      rewrite <- Hpts. apply in_grid. auto. }
    destruct p as [[[n T] E] tau]. exists n, T, E, tau. simpl in *.
    split; [exact Hbest|].
    assert (Hin : In (n, T, E, tau) (grid n_range T_range E_range tau_range))
      by (rewrite Hpts; apply in_elt).
    apply in_grid in Hin as (Hn & HT & HE & Htau).
    repeat split; try assumption.
    intros n' T' E' tau' Hn' HT' HE' Htau' Hnum.
    apply leb_total; auto.
    now apply (ltb_numbers neg_infinity).
Qed.

Lemma find_best_parameters_maximal_witness :
  exists n T E tau,
    find_best_parameters [1e20; 2e20] [5000; 10000] [15; 20] [0.05; 0.1]
    = (params_dict n T E tau, fusion n T E tau)
    /\ In n [1e20; 2e20] /\ In T [5000; 10000] /\ In E [15; 20]
    /\ In tau [0.05; 0.1]
    /\ (forall n' T' E' tau',
          In n' [1e20; 2e20] -> In T' [5000; 10000] -> In E' [15; 20] ->
          In tau' [0.05; 0.1] ->
          (fusion n T E tau <? fusion n' T' E' tau') = false)
    /\ (forall n' T' E' tau',
          In n' [1e20; 2e20] -> In T' [5000; 10000] -> In E' [15; 20] ->
          In tau' [0.05; 0.1] ->
          is_number (fusion n' T' E' tau') = true ->
          (fusion n' T' E' tau' <=? fusion n T E tau) = true).
Proof.
  apply (find_best_parameters_maximal [1e20; 2e20] [5000; 10000] [15; 20]
           [0.05; 0.1]).
  exists 1e20, 5000, 15, 0.05. simpl.
  repeat split; try (left; reflexivity).
Defined.

(** Where an element of a [flat_map] comes from: the list splits around the
    element whose image holds it. *)
Lemma flat_map_split {A B : Type} (f : A -> list B) (l : list A)
    (l1 l2 : list B) (p : B) :
  flat_map f l = l1 ++ p :: l2 ->
  exists a1 x a2 m1 m2,
    l = a1 ++ x :: a2 /\ f x = m1 ++ p :: m2
    /\ l1 = flat_map f a1 ++ m1 /\ l2 = m2 ++ flat_map f a2.
Proof.
  revert l1. induction l as [|x l IH]; intros l1 H; simpl in H.
  - destruct l1; discriminate.
  - apply app_eq_app in H as [l0 [[Hfx Htail] | [Hl1 Hrest]]].
    + destruct l0 as [|p' l0].
      * simpl in Htail. rewrite app_nil_r in Hfx. symmetry in Htail.
        apply (IH []) in Htail
          as (a1 & y & a2 & m1 & m2 & Hl & Hfy & Hm1 & Hm2).
        exists (x :: a1), y, a2, m1, m2. subst l. simpl.
        repeat split; try assumption.
        rewrite <- app_assoc, <- Hm1, app_nil_r. now symmetry.
      * inversion Htail; subst p' l2.
        exists [], x, l, l1, l0. repeat split; assumption.
    + apply IH in Hrest as (a1 & y & a2 & m1 & m2 & Hl & Hfy & Hm1 & Hm2).
      exists (x :: a1), y, a2, m1, m2. subst l l1 l0. simpl.
      repeat split; try assumption. now rewrite app_assoc.
Qed.

Lemma map_split {A B : Type} (f : A -> B) (l : list A) (l1 l2 : list B) (p : B) :
  map f l = l1 ++ p :: l2 ->
  exists d1 x d2, l = d1 ++ x :: d2 /\ p = f x /\ l1 = map f d1.
Proof.
  intros H. apply map_eq_app in H as (d1 & r & Hl & Hd1 & Hr).
  apply map_eq_cons in Hr as (x & d2 & Hr & Hx & _).
  exists d1, x, d2. subst. auto.
Qed.

Lemma grid_split (n_range T_range E_range tau_range : list float)
    (l1 l2 : list point) (p : point) :
  grid n_range T_range E_range tau_range = l1 ++ p :: l2 ->
  exists a1 n a2 b1 T b2 c1 E c2 d1 tau d2,
    n_range = a1 ++ n :: a2 /\ T_range = b1 ++ T :: b2
    /\ E_range = c1 ++ E :: c2 /\ tau_range = d1 ++ tau :: d2
    /\ p = (n, T, E, tau)
    /\ forall q, reached_before a1 b1 c1 d1 n T E T_range E_range tau_range q
                 -> In q l1.
Proof.
  unfold grid. intros H.
  apply flat_map_split in H as (a1 & n & a2 & k1 & k2 & Hn & H & Hl1 & _).
  apply flat_map_split in H as (b1 & T & b2 & j1 & j2 & HT & H & Hk1 & _).
  apply flat_map_split in H as (c1 & E & c2 & i1 & i2 & HE & H & Hj1 & _).
  apply map_split in H as (d1 & tau & d2 & Htau & Hp & Hi1).
  exists a1, n, a2, b1, T, b2, c1, E, c2, d1, tau, d2.
  repeat split; try assumption.
  intros [[[n' T'] E'] tau'] Hq. subst l1 k1 j1 i1.
  destruct Hq as [(Hn' & HT' & HE' & Htau')
                 | [(-> & HT' & HE' & Htau')
                   | [(-> & -> & HE' & Htau') | (-> & -> & -> & Htau')]]].
  - apply in_or_app; left.
    apply in_flat_map; exists n'; split; [assumption|].
    apply in_flat_map; exists T'; split; [assumption|].
    apply in_flat_map; exists E'; split; [assumption|].
    now apply in_map.
  - apply in_or_app; right. apply in_or_app; left.
    apply in_flat_map; exists T'; split; [assumption|].
    apply in_flat_map; exists E'; split; [assumption|].
    now apply in_map.
  - apply in_or_app; right. apply in_or_app; right. apply in_or_app; left.
    apply in_flat_map; exists E'; split; [assumption|].
    now apply in_map.
  - do 3 (apply in_or_app; right).
    now apply (in_map (fun tau => (n, T, E, tau))).
Qed.

(** C3, as stated: two distinct points of a product of non-empty ranges both
    attain the maximal evaluation, negative infinity, and the search returns
    neither: its dict is empty, not that of the first of them. *)
Lemma find_best_parameters_tie_not_kept :
  fusion 1e300 1 1 1e-300 = neg_infinity
  /\ fusion 1e300 1 2 1e-300 = neg_infinity
  /\ grid [1e300] [1] [1; 2] [1e-300]
     = [(1e300, 1, 1, 1e-300); (1e300, 1, 2, 1e-300)]
  /\ fst (find_best_parameters [1e300] [1] [1; 2] [1e-300])
     <> params_dict 1e300 1 1 1e-300.
Proof.
  repeat split; try (vm_compute; reflexivity).
  vm_compute. discriminate.
Qed.

(** C3, amended: when some point of the Cartesian product evaluates to more
    than negative infinity, the point [find_best_parameters] returns is the
    first, in the order of the nested loops ([n] outermost, then [T], then
    [E], then [tau] innermost), to attain the maximal evaluation: no point
    of the product evaluates to more, and every point reached before it
    evaluates to strictly less or to NaN, hence does not tie with it. *)
Theorem find_best_parameters_first_maximizer
    (n_range T_range E_range tau_range : list float) :
  (exists n0 T0 E0 tau0,
      In n0 n_range /\ In T0 T_range /\ In E0 E_range /\ In tau0 tau_range
      /\ (neg_infinity <? fusion n0 T0 E0 tau0) = true) ->
  exists a1 n a2 b1 T b2 c1 E c2 d1 tau d2,
    n_range = a1 ++ n :: a2 /\ T_range = b1 ++ T :: b2
    /\ E_range = c1 ++ E :: c2 /\ tau_range = d1 ++ tau :: d2
    /\ find_best_parameters n_range T_range E_range tau_range
       = (params_dict n T E tau, fusion n T E tau)
    /\ (forall q, In q (grid n_range T_range E_range tau_range) ->
                  (fusion n T E tau <? eval q) = false)
    /\ (forall q,
          reached_before a1 b1 c1 d1 n T E T_range E_range tau_range q ->
          (fusion n T E tau <=? eval q) = false
          /\ (eval q =? fusion n T E tau) = false).
Proof.
  intros (n0 & T0 & E0 & tau0 & Hn0 & HT0 & HE0 & Htau0 & Hgt).
  destruct (find_best_parameters_cases n_range T_range E_range tau_range)
    as [[_ Hno] | (l1 & p & l2 & Hpts & Hbest & Hp & Hl1 & Hl2)].
  - specialize (Hno (n0, T0, E0, tau0)). simpl in Hno.
    rewrite Hno in Hgt; [discriminate|]. apply in_grid. auto.
  - destruct (grid_split _ _ _ _ _ _ _ Hpts)
      as (a1 & n & a2 & b1 & T & b2 & c1 & E & c2 & d1 & tau & d2
          & Hn & HT & HE & Htau & -> & Hbefore).
    exists a1, n, a2, b1, T, b2, c1, E, c2, d1, tau, d2.
    simpl in *. repeat split; try assumption.
    + intros q Hq.
      apply (kept_point_maximal l1 l2 (n, T, E, tau) q); try assumption.
      now rewrite <- Hpts.
    + apply (Hl1 q). now apply Hbefore.
    + apply leb_false_eqb_false. apply (Hl1 q). now apply Hbefore.
Qed.

Lemma find_best_parameters_first_maximizer_witness :
  exists a1 n a2 b1 T b2 c1 E c2 d1 tau d2,
    [1; 1] = a1 ++ n :: a2 /\ [2] = b1 ++ T :: b2
    /\ [3; 3] = c1 ++ E :: c2 /\ [1; 4; 4] = d1 ++ tau :: d2
    /\ find_best_parameters [1; 1] [2] [3; 3] [1; 4; 4]
       = (params_dict n T E tau, fusion n T E tau)
    /\ (forall q, In q (grid [1; 1] [2] [3; 3] [1; 4; 4]) ->
                  (fusion n T E tau <? eval q) = false)
    /\ (forall q,
          reached_before a1 b1 c1 d1 n T E [2] [3; 3] [1; 4; 4] q ->
          (fusion n T E tau <=? eval q) = false
          /\ (eval q =? fusion n T E tau) = false).
Proof.
  apply (find_best_parameters_first_maximizer [1; 1] [2] [3; 3] [1; 4; 4]).
  exists 1, 2, 3, 1. simpl. repeat split; try (left; reflexivity).
Defined.

Lemma grid_empty (n_range T_range E_range tau_range : list float) :
  n_range = [] \/ T_range = [] \/ E_range = [] \/ tau_range = [] ->
  grid n_range T_range E_range tau_range = [].
Proof.
  intros H.
  destruct (grid n_range T_range E_range tau_range) as [|[[[n T] E] tau] l]
    eqn:Hg; [reflexivity|].
  assert (Hin : In (n, T, E, tau) (grid n_range T_range E_range tau_range))
    by (rewrite Hg; left; reflexivity).
  apply in_grid in Hin as (Hn & HT & HE & Htau).
  destruct H as [-> | [-> | [-> | ->]]]; contradiction.
Qed.

(** C4, as stated: with an empty range the call raises nothing, it returns
    the empty dict and negative infinity; and on one-element ranges whose
    evaluation is NaN it returns the same pair, not the unique combination. *)
Lemma find_best_parameters_empty_range_returns :
  find_best_parameters [] [5000] [15] [0.05] = ([], neg_infinity)
  /\ find_best_parameters [1e20] [5000] [15] [] = ([], neg_infinity)
  /\ fusion 1e200 1e200 1 1 = nan
  /\ find_best_parameters [1e200] [1e200] [1] [1] = ([], neg_infinity).
Proof. repeat split; vm_compute; reflexivity. Qed.

(** C4, amended: if any of the four ranges is empty, [find_best_parameters]
    raises no error and returns the empty dict with negative infinity; with
    a one-element range in every dimension it returns that combination and
    its evaluation when the evaluation is greater than negative infinity,
    and the empty dict with negative infinity otherwise. *)
Theorem find_best_parameters_boundary :
  (forall n_range T_range E_range tau_range,
      n_range = [] \/ T_range = [] \/ E_range = [] \/ tau_range = [] ->
      find_best_parameters n_range T_range E_range tau_range
      = ([], neg_infinity))
  /\ (forall n T E tau,
        find_best_parameters [n] [T] [E] [tau]
        = if neg_infinity <? fusion n T E tau
          then (params_dict n T E tau, fusion n T E tau)
          else ([], neg_infinity)).
Proof.
  split.
  - intros n_range T_range E_range tau_range H.
    unfold find_best_parameters.
    now rewrite search_loops_grid, grid_empty.
  - intros n T E tau. unfold find_best_parameters, search_loops, visit.
    simpl. now destruct (neg_infinity <? fusion n T E tau).
Qed.

Lemma find_best_parameters_boundary_witness :
  find_best_parameters [1e20; 2e20] [] [15; 20] [0.05; 0.1]
  = ([], neg_infinity)
  /\ find_best_parameters [1e20] [15000] [17.6] [0.1]
     = (params_dict 1e20 15000 17.6 0.1, fusion 1e20 15000 17.6 0.1).
Proof.
  split.
  - apply (proj1 find_best_parameters_boundary). right. left. reflexivity.
  - exact (proj2 find_best_parameters_boundary 1e20 15000 17.6 0.1).
Defined.

Lemma float_eq_dec (x y : float) : {x = y} + {x <> y}.
Proof.
  destruct (Leibniz.eqb x y) eqn:H.
  - left. now apply FloatAxioms.Leibniz.eqb_spec.
  - right. intros Heq. apply FloatAxioms.Leibniz.eqb_spec in Heq. congruence.
Qed.

(** C7, as stated: an evaluation that overflows to positive infinity takes
    part in the comparison and is returned as the best value, with its
    point. *)
Lemma find_best_parameters_returns_infinity :
  fusion 1e200 1e100 1e100 1 = infinity
  /\ find_best_parameters [1; 1e200] [1e100] [1e100] [1]
     = (params_dict 1e200 1e100 1e100 1, infinity).
Proof. split; vm_compute; reflexivity. Qed.

(** C7, amended: an evaluation that yields NaN or negative infinity never
    changes the running maximum or the running best point; the returned
    value is never NaN and the returned point never evaluates to NaN or to
    negative infinity.  Positive infinity is not excluded: when some point
    of the product evaluates to it, the returned value is positive infinity
    and a point is returned. *)
Theorem find_best_parameters_non_finite :
  (forall st n T E tau,
      fusion n T E tau = nan \/ fusion n T E tau = neg_infinity ->
      visit st n T E tau = st)
  /\ (forall n_range T_range E_range tau_range,
        is_number (snd (find_best_parameters n_range T_range E_range tau_range))
        = true)
  /\ (forall n_range T_range E_range tau_range n T E tau,
        fst (find_best_parameters n_range T_range E_range tau_range)
        = params_dict n T E tau ->
        snd (find_best_parameters n_range T_range E_range tau_range)
        = fusion n T E tau
        /\ fusion n T E tau <> nan /\ fusion n T E tau <> neg_infinity)
  /\ (forall n_range T_range E_range tau_range n T E tau,
        In n n_range -> In T T_range -> In E E_range -> In tau tau_range ->
        fusion n T E tau = infinity ->
        snd (find_best_parameters n_range T_range E_range tau_range) = infinity
        /\ fst (find_best_parameters n_range T_range E_range tau_range) <> []).
Proof.
  repeat apply conj.
  - intros st n T E tau H. unfold visit.
    destruct (max_output st <? fusion n T E tau) eqn:Hlt; [|reflexivity].
    destruct H as [H | H]; rewrite H in Hlt.
    + rewrite ltb_nan in Hlt. discriminate.
    + rewrite ltb_neg_infinity in Hlt. discriminate.
  - intros n_range T_range E_range tau_range.
    destruct (find_best_parameters_cases n_range T_range E_range tau_range)
      as [[-> _] | (l1 & p & l2 & _ & -> & Hp & _)]; simpl.
    + reflexivity.
    + now apply (ltb_numbers neg_infinity).
  - intros n_range T_range E_range tau_range n T E tau Hd.
    destruct (find_best_parameters_cases n_range T_range E_range tau_range)
      as [[Hnone _] | (l1 & p & l2 & _ & Hbest & Hp & _)].
    + rewrite Hnone in Hd. discriminate.
    + rewrite Hbest in *. destruct p as [[[n' T'] E'] tau']. simpl in *.
      inversion Hd; subst. split; [reflexivity|].
      apply above_neg_infinity_iff in Hp as [Hnum Hne].
      split; [|exact Hne]. intros Hnan. rewrite Hnan in Hnum. discriminate.
  - intros n_range T_range E_range tau_range n T E tau Hn HT HE Htau Hinf.
    assert (Hin : In (n, T, E, tau) (grid n_range T_range E_range tau_range))
      by (apply in_grid; auto).
    destruct (find_best_parameters_cases n_range T_range E_range tau_range)
      as [[_ Hno] | (l1 & p & l2 & Hpts & -> & Hp & Hl1 & Hl2)].
    + specialize (Hno _ Hin). simpl in Hno. rewrite Hinf in Hno. discriminate.
    + simpl. split; [|apply point_dict_nonempty].
      destruct (float_eq_dec (eval p) infinity) as [Heq | Hne]; [exact Heq|].
      assert (Hmax : (eval p <? eval (n, T, E, tau)) = false)
        by (apply (kept_point_maximal l1 l2); try assumption;
            now rewrite <- Hpts).
      simpl in Hmax. rewrite Hinf in Hmax.
      rewrite ltb_below_infinity in Hmax; [discriminate| |assumption].
      now apply (ltb_numbers neg_infinity).
Qed.

Lemma find_best_parameters_non_finite_witness :
  visit search_init 1e200 1e200 1 1 = search_init
  /\ snd (find_best_parameters [1; 1e200] [1e100] [1e100] [1]) = infinity.
Proof.
  split.
  - apply (proj1 find_best_parameters_non_finite). left. reflexivity.
  - apply (proj2 (proj2 (proj2 find_best_parameters_non_finite))
             [1; 1e200] [1e100] [1e100] [1] 1e200 1e100 1e100 1);
      simpl; auto.
Defined.

(** ** The sweep *)

Lemma append_loop_map (f : float -> float) (vals outputs : list float) :
  append_loop f vals outputs = outputs ++ map f vals.
Proof.
  unfold append_loop. revert outputs.
  induction vals as [|v vals IH]; intros outputs; simpl.
  - now rewrite app_nil_r.
  - now rewrite IH, <- app_assoc.
Qed.

Lemma combine_map_self {A B : Type} (f : A -> B) (l : list A) :
  combine l (map f l) = map (fun a => (a, f a)) l.
Proof. induction l as [|a l IH]; simpl; [reflexivity|now rewrite IH]. Qed.

(** The figure of each of the four selectbox entries. *)
Lemma create_parameter_impact_plots_selected (p : parameter)
    (n T E tau : float) :
  create_parameter_impact_plots (selector_name p) n T E tau
  = mkFigure param_range
             (map (scaled_output p n T E tau) param_range)
             ("Energy Output vs. " ++ selector_name p)
             (selector_name p ++ " Multiplier")
             "Energy Output".
Proof.
  destruct p; unfold create_parameter_impact_plots, selector_name;
    cbn [String.eqb Ascii.eqb Bool.eqb]; rewrite append_loop_map;
    reflexivity.
Qed.

Lemma param_range_facts :
  List.length param_range = 100%nat
  /\ nth 0 param_range 0 = 0.1
  /\ nth 99 param_range 0 = 2
  /\ strictly_ascending param_range = true
  /\ equally_spaced param_range = true.
Proof. repeat split; vm_compute; reflexivity. Qed.

Lemma equally_spaced_nth (l : list float) (i : nat) :
  equally_spaced l = true -> (i < List.length l)%nat ->
  (Qabs (float_to_Q (nth i l 0%float) - ideal_multiplier i) <= 1 # 2 ^ 52)%Q.
Proof.
  unfold equally_spaced. intros H Hi.
  rewrite forallb_forall in H. apply Qle_bool_iff, H, in_seq. lia.
Qed.

(** C5: for each of the four selectors and all fixed values, the figure pairs
    100 multipliers with outputs; the multipliers are those of
    [np.linspace(0.1, 2, 100)]: the first is [0.1], the last is [2.0], they
    are strictly ascending and each is within [2^-52] of the equally spaced
    value [0.1 + i * 1.9 / 99]; the output paired with a multiplier [m] is
    [fusion] with the selected parameter replaced by [m] times its value and
    the other three unchanged. *)
Theorem create_parameter_impact_plots_sweep (p : parameter)
    (n T E tau : float) :
  let fig := create_parameter_impact_plots (selector_name p) n T E tau in
  List.length (sweep_points fig) = 100%nat
  /\ List.length (scatter_x fig) = 100%nat
  /\ List.length (scatter_y fig) = 100%nat
  /\ nth 0 (scatter_x fig) 0 = 0.1
  /\ nth 99 (scatter_x fig) 0 = 2
  /\ strictly_ascending (scatter_x fig) = true
  /\ (forall i, (i < 100)%nat ->
        (Qabs (float_to_Q (nth i (scatter_x fig) 0%float) - ideal_multiplier i)
         <= 1 # 2 ^ 52)%Q)
  /\ sweep_points fig
     = map (fun m => (m, scaled_output p n T E tau m)) (scatter_x fig).
Proof.
  intros fig. subst fig. rewrite create_parameter_impact_plots_selected.
  unfold sweep_points. cbn [scatter_x scatter_y].
  destruct param_range_facts as (Hlen & Hfirst & Hlast & Hasc & Heq).
  rewrite combine_map_self, !length_map, Hlen.
  repeat split; try assumption.
  intros i Hi. apply equally_spaced_nth; [assumption|]. now rewrite Hlen.
Qed.

(** C6, as stated: a selector that is none of the four recognized ones
    raises nothing; the figure it yields has the trace and the axis label
    of the Confinement Time sweep. *)
Lemma create_parameter_impact_plots_unrecognized :
  create_parameter_impact_plots "Pressure" 1e20 15000 17.6 0.1
  = mkFigure param_range
             (map (fun m => fusion 1e20 15000 17.6 (m * 0.1)) param_range)
             "Energy Output vs. Pressure"
             "Confinement Time Multiplier"
             "Energy Output"
  /\ sweep_points (create_parameter_impact_plots "Pressure" 1e20 15000 17.6 0.1)
     = sweep_points
         (create_parameter_impact_plots "Confinement Time" 1e20 15000 17.6 0.1).
Proof. split; vm_compute; reflexivity. Qed.

(** C6, amended: for every selector other than "Particle Density",
    "Temperature" and "Energy Release" (so for "Confinement Time" and for
    every unrecognized text alike) no error is raised and the figure is the
    Confinement Time sweep: each multiplier [m] is paired with
    [fusion n T E (m * tau)] and the x axis is labelled
    "Confinement Time Multiplier"; only the title repeats the selector. *)
Theorem create_parameter_impact_plots_default (selected_parameter : string)
    (n T E tau : float) :
  selected_parameter <> "Particle Density"%string ->
  selected_parameter <> "Temperature"%string ->
  selected_parameter <> "Energy Release"%string ->
  create_parameter_impact_plots selected_parameter n T E tau
  = mkFigure param_range
             (map (fun m => fusion n T E (m * tau)) param_range)
             ("Energy Output vs. " ++ selected_parameter)
             "Confinement Time Multiplier"
             "Energy Output".
Proof.
  intros H1 H2 H3. unfold create_parameter_impact_plots.
  apply String.eqb_neq in H1, H2, H3. rewrite H1, H2, H3.
  now rewrite append_loop_map.
Qed.

Lemma create_parameter_impact_plots_default_witness :
  create_parameter_impact_plots "Pressure" 1e20 15000 17.6 0.1
  = mkFigure param_range
             (map (fun m => fusion 1e20 15000 17.6 (m * 0.1)) param_range)
             ("Energy Output vs. " ++ "Pressure")
             "Confinement Time Multiplier"
             "Energy Output".
Proof.
  apply (create_parameter_impact_plots_default "Pressure" 1e20 15000 17.6 0.1);
    discriminate.
Defined.

(** ** Determinism: no hidden state *)

Lemma holds_seq_bound (h : heap) (a : addr) (l : list float) :
  holds_seq h a l -> (a < List.length h)%nat.
Proof.
  intros (o & Ho & _). apply nth_error_Some. now rewrite Ho.
Qed.

Lemma holds_seq_app (h new : heap) (a : addr) (l : list float) :
  holds_seq h a l -> holds_seq (h ++ new) a l.
Proof.
  intros H. pose proof (holds_seq_bound _ _ _ H) as Hlt.
  destruct H as (o & Ho & Hl). exists o. split; [|exact Hl].
  now rewrite nth_error_app1.
Qed.

Lemma py_iter_holds (h : heap) (a : addr) (l : list float) :
  holds_seq h a l -> py_iter a h = Some (l, h).
Proof.
  intros (o & Ho & Hl). unfold py_iter, py_bind, py_load.
  now rewrite Ho, Hl.
Qed.

Lemma nth_error_new (h : heap) (o : object) :
  nth_error (h ++ [o]) (List.length h) = Some o.
Proof. now rewrite nth_error_app2, Nat.sub_diag by lia. Qed.

(** A loop whose body keeps a relation [R] between its locals, the heap
    and an abstract state keeps it over the whole sequence. *)
Lemma py_for_each_refines {S P : Type} (R : S -> heap -> P -> Prop)
    (body : float -> S -> py S) (step : P -> float -> P) (l : list float) :
  (forall x s h p, R s h p ->
     exists s' h', body x s h = Some (s', h') /\ R s' h' (step p x)) ->
  forall s h p, R s h p ->
    exists s' h', py_for_each l body s h = Some (s', h')
                  /\ R s' h' (fold_left step l p).
Proof.
  intros Hbody. induction l as [|x l IH]; intros s h p HR; simpl.
  - exists s, h. split; [reflexivity | exact HR].
  - destruct (Hbody x s h p HR) as (s1 & h1 & Hrun & HR1).
    unfold py_bind. rewrite Hrun. now apply IH.
Qed.

Lemma py_for_refines {S P : Type} (R : S -> heap -> P -> Prop)
    (a : addr) (body : float -> S -> py S) (step : P -> float -> P)
    (l : list float) :
  (forall s h p, R s h p -> holds_seq h a l) ->
  (forall x s h p, R s h p ->
     exists s' h', body x s h = Some (s', h') /\ R s' h' (step p x)) ->
  forall s h p, R s h p ->
    exists s' h', py_for a body s h = Some (s', h')
                  /\ R s' h' (fold_left step l p).
Proof.
  intros Hseq Hbody s h p HR. unfold py_for, py_bind.
  rewrite (py_iter_holds h a l (Hseq s h p HR)).
  now apply py_for_each_refines.
Qed.

Lemma search_rel_holds_seq (h0 h : heap) (fr : search_frame)
    (st : search_state) (a : addr) (l : list float) :
  holds_seq h0 a l -> search_rel h0 fr h st -> holds_seq h a l.
Proof.
  intros Hseq ((new & ->) & _). now apply holds_seq_app.
Qed.

Lemma py_visit_refines (h0 : heap) (n T E tau : float) (fr : search_frame)
    (h : heap) (st : search_state) :
  search_rel h0 fr h st ->
  exists fr' h',
    py_visit n T E tau fr h = Some (fr', h')
    /\ search_rel h0 fr' h' (visit st n T E tau).
Proof.
  intros ((new & ->) & Hd & Hmax & Hfresh).
  unfold py_visit, py_bind, py_fusion, py_ret, py_new, visit. rewrite Hmax.
  fold (fusion n T E tau).
  destruct (max_output st <? fusion n T E tau).
  - eexists. eexists. split; [reflexivity|].
    repeat split; simpl.
    + exists (new ++ [PyDict (params_dict n T E tau)]).
      now rewrite app_assoc.
    + apply nth_error_new.
    + rewrite length_app. lia.
  - exists fr, (h0 ++ new). split; [reflexivity|].
    repeat split; try assumption. now exists new.
Qed.

Lemma py_search_loops_refines (h0 : heap) (an aT aE atau : addr)
    (n_range T_range E_range tau_range : list float)
    (fr : search_frame) (h : heap) (st : search_state) :
  holds_seq h0 an n_range -> holds_seq h0 aT T_range ->
  holds_seq h0 aE E_range -> holds_seq h0 atau tau_range ->
  search_rel h0 fr h st ->
  exists fr' h',
    py_search_loops an aT aE atau fr h = Some (fr', h')
    /\ search_rel h0 fr' h'
         (search_loops n_range T_range E_range tau_range st).
Proof.
  intros Hn HT HE Htau. revert fr h st.
  unfold py_search_loops, search_loops.
  apply py_for_refines.
  { intros s h p. now apply search_rel_holds_seq. }
  intros n. apply py_for_refines.
  { intros s h p. now apply search_rel_holds_seq. }
  intros T. apply py_for_refines.
  { intros s h p. now apply search_rel_holds_seq. }
  intros E. apply py_for_refines.
  { intros s h p. now apply search_rel_holds_seq. }
  intros tau fr h st. apply py_visit_refines.
Qed.

(** [find_best_parameters] on the heap: it succeeds whenever the four
    addresses hold sequences, adds objects without touching any that was
    there, and returns the value of the function of the four sequences
    with, at a new address, its dict. *)
Lemma py_find_best_parameters_refines (h : heap)
    (an aT aE atau : addr) (n_range T_range E_range tau_range : list float) :
  holds_seq h an n_range -> holds_seq h aT T_range ->
  holds_seq h aE E_range -> holds_seq h atau tau_range ->
  exists r h',
    py_find_best_parameters an aT aE atau h = Some (r, h')
    /\ search_result h' r
       = Some (find_best_parameters n_range T_range E_range tau_range)
    /\ preserved h h'
    /\ (List.length h <= fst r)%nat.
Proof.
  intros Hn HT HE Htau.
  assert (H1 : search_rel h (mkFrame neg_infinity (List.length h))
                 (h ++ [PyDict []]) search_init).
  { repeat split; simpl.
    - now exists [PyDict []].
    - apply nth_error_new.
    - lia. }
  destruct (py_search_loops_refines h an aT aE atau _ _ _ _ _ _ _
              Hn HT HE Htau H1) as (fr' & h' & Hrun & Hrel).
  destruct Hrel as (Hpres & Hd & Hmax & Hfresh).
  exists (frame_best_params fr', frame_max_output fr'), h'.
  split.
  - unfold py_find_best_parameters, py_bind, py_new. now rewrite Hrun.
  - unfold search_result, find_best_parameters. simpl fst. simpl snd.
    rewrite Hd, Hmax. repeat split; assumption.
Qed.

Lemma nth_error_app_offset (h t : heap) (k : nat) :
  nth_error (h ++ t) (List.length h + k)%nat = nth_error t k.
Proof.
  rewrite nth_error_app2 by lia. f_equal. lia.
Qed.

Lemma heap_set_app_offset (h t : heap) (k : nat) (o : object) :
  heap_set (List.length h + k)%nat o (h ++ t) = h ++ heap_set k o t.
Proof.
  induction h as [|x h IH]; simpl; [now destruct t|]. now rewrite IH.
Qed.

Lemma nth_error_app_length (h t : heap) (o : object) :
  nth_error (h ++ o :: t) (List.length h) = Some o.
Proof. now rewrite nth_error_app2, Nat.sub_diag by lia. Qed.

(** An appending loop on a heap that ends with the array and the list. *)
Lemma py_append_loop (h : heap) (pr : list float) (f : float -> float)
    (body : float -> unit -> py unit) (l acc : list float) :
  (forall val u, body val u = py_append (List.length h + 1)%nat (f val)) ->
  py_for_each l body tt (h ++ [PyArray pr; PyList acc])
  = Some (tt, h ++ [PyArray pr; PyList (append_loop f l acc)]).
Proof.
  intros Hbody. revert acc. induction l as [|x l IH]; intros acc; simpl.
  - reflexivity.
  - unfold py_bind. rewrite Hbody.
    unfold py_append, py_bind, py_load, py_store.
    rewrite nth_error_app_offset. simpl.
    rewrite nth_error_app_offset, heap_set_app_offset. simpl.
    apply IH.
Qed.

Lemma py_sweep_loop (h : heap) (pr : list float) (f : float -> float)
    (body : float -> unit -> py unit) :
  (forall val u, body val u = py_append (List.length h + 1)%nat (f val)) ->
  py_for (List.length h) body tt (h ++ [PyArray pr; PyList []])
  = Some (tt, h ++ [PyArray pr; PyList (append_loop f pr [])]).
Proof.
  intros Hbody. unfold py_for, py_iter, py_load, py_bind.
  rewrite nth_error_app_length. simpl.
  now apply py_append_loop.
Qed.

Lemma py_sweep_branch_run (h : heap) (selected_parameter : string)
    (n T E tau : float) :
  exists ys x_label,
    py_sweep_branch selected_parameter n T E tau
      (List.length h) (List.length h + 1)%nat
      (h ++ [PyArray param_range; PyList []])
    = Some (x_label, h ++ [PyArray param_range; PyList ys])
    /\ create_parameter_impact_plots selected_parameter n T E tau
       = mkFigure param_range ys
                  ("Energy Output vs. " ++ selected_parameter)
                  x_label "Energy Output".
Proof.
  unfold py_sweep_branch, create_parameter_impact_plots.
  destruct (String.eqb selected_parameter "Particle Density");
    [|destruct (String.eqb selected_parameter "Temperature");
      [|destruct (String.eqb selected_parameter "Energy Release")]];
    eexists; eexists; (split; [|reflexivity]);
    unfold py_bind at 1;
    [rewrite (py_sweep_loop h _ (fun val => fusion (val * n) T E tau))
    |rewrite (py_sweep_loop h _ (fun val => fusion n (val * T) E tau))
    |rewrite (py_sweep_loop h _ (fun val => fusion n T (val * E) tau))
    |rewrite (py_sweep_loop h _ (fun val => fusion n T E (val * tau)))];
    reflexivity.
Qed.

(** [create_parameter_impact_plots] on the heap: it always succeeds, adds
    objects without touching any that was there, and returns the address,
    a new one, of the figure the function of the arguments describes. *)
Lemma py_create_parameter_impact_plots_refines (h : heap)
    (selected_parameter : string) (n T E tau : float) :
  exists a h',
    py_create_parameter_impact_plots selected_parameter n T E tau h
    = Some (a, h')
    /\ figure_result h' a
       = Some (create_parameter_impact_plots selected_parameter n T E tau)
    /\ preserved h h'
    /\ (List.length h <= a)%nat.
Proof.
  destruct (py_sweep_branch_run h selected_parameter n T E tau)
    as (ys & x_label & Hrun & Hpure).
  exists (List.length h + 2)%nat.
  exists (h ++ [PyArray param_range; PyList ys;
                PyFigure (create_parameter_impact_plots selected_parameter
                            n T E tau)]).
  split; [|split; [|split]].
  - unfold py_create_parameter_impact_plots, py_linspace.
    unfold py_bind at 1. unfold py_new at 1.
    unfold py_bind at 1. unfold py_new at 1.
    rewrite <- app_assoc, length_app. simpl app. simpl List.length.
    change (linspace 0.1 2 100) with param_range.
    unfold py_bind at 1. rewrite Hrun.
    unfold py_bind at 1. unfold py_figure, py_iter, py_load, py_new, py_bind.
    rewrite nth_error_app_length. simpl.
    rewrite nth_error_app_offset. simpl.
    unfold py_update_layout, py_load, py_store, py_ret, py_bind.
    rewrite length_app, <- app_assoc. simpl.
    rewrite nth_error_app_offset. simpl.
    rewrite nth_error_app_offset. simpl.
    rewrite heap_set_app_offset. simpl. rewrite Hpure. reflexivity.
  - unfold figure_result. now rewrite nth_error_app_offset.
  - now eexists.
  - lia.
Qed.

Lemma nth_error_heap_set (h : heap) (a : addr) (o0 o : object) :
  nth_error h a = Some o0 -> nth_error (heap_set a o h) a = Some o.
Proof.
  revert a. induction h as [|x h IH]; intros [|a] H; simpl in *;
    try discriminate; auto.
Qed.

(** The heap does record mutation: after [lst.append(v)] the list at that
    address has one more entry. *)
Lemma py_append_visible (h : heap) (a : addr) (l : list float) (v : float) :
  nth_error h a = Some (PyList l) ->
  exists h', py_append a v h = Some (tt, h')
             /\ nth_error h' a = Some (PyList (l ++ [v])).
Proof.
  intros Ha. unfold py_append, py_bind, py_load, py_store. rewrite Ha, Ha.
  eexists. split; [reflexivity|]. now apply (nth_error_heap_set h a (PyList l)).
Qed.

Lemma search_result_app (h new : heap) (r : addr * float) (x : dict * float) :
  search_result h r = Some x -> search_result (h ++ new) r = Some x.
Proof.
  unfold search_result. destruct (nth_error h (fst r)) as [o|] eqn:Ho;
    [|discriminate].
  rewrite nth_error_app1, Ho; [auto|]. apply nth_error_Some. now rewrite Ho.
Qed.

Lemma figure_result_app (h new : heap) (a : addr) (f : figure) :
  figure_result h a = Some f -> figure_result (h ++ new) a = Some f.
Proof.
  unfold figure_result. destruct (nth_error h a) as [o|] eqn:Ho;
    [|discriminate].
  rewrite nth_error_app1, Ho; [auto|]. apply nth_error_Some. now rewrite Ho.
Qed.

Lemma search_result_bound (h : heap) (r : addr * float) (x : dict * float) :
  search_result h r = Some x -> (fst r < List.length h)%nat.
Proof.
  unfold search_result. intros H. apply nth_error_Some.
  now destruct (nth_error h (fst r)).
Qed.

Lemma figure_result_bound (h : heap) (a : addr) (f : figure) :
  figure_result h a = Some f -> (a < List.length h)%nat.
Proof.
  unfold figure_result. intros H. apply nth_error_Some.
  now destruct (nth_error h a).
Qed.

(** C9: the three functions keep no state between calls.  [fusion] reads
    and writes no object.  [find_best_parameters] and
    [create_parameter_impact_plots], run on any two heaps (the objects alive
    before a first and before a second call, whatever ran in between) in
    which the arguments denote the same values, both return, and return
    identical results: the dict and value, or the figure, that the
    arguments alone determine.  Each call only adds objects: every object
    that was on the heap is still there, unchanged, so a call leaves nothing
    behind that a later call reads.  In particular two calls in a row, the
    second on the heap the first has left, return identical results, held
    in distinct objects. *)
Theorem calls_have_no_hidden_state :
  (forall h n T E tau, py_fusion n T E tau h = Some (fusion n T E tau, h))
  /\ (forall h1 h2 an aT aE atau bn bT bE btau
             n_range T_range E_range tau_range,
        holds_seq h1 an n_range -> holds_seq h1 aT T_range ->
        holds_seq h1 aE E_range -> holds_seq h1 atau tau_range ->
        holds_seq h2 bn n_range -> holds_seq h2 bT T_range ->
        holds_seq h2 bE E_range -> holds_seq h2 btau tau_range ->
        exists r1 h1' r2 h2',
          py_find_best_parameters an aT aE atau h1 = Some (r1, h1')
          /\ py_find_best_parameters bn bT bE btau h2 = Some (r2, h2')
          /\ search_result h1' r1 = search_result h2' r2
          /\ search_result h1' r1
             = Some (find_best_parameters n_range T_range E_range tau_range)
          /\ preserved h1 h1' /\ preserved h2 h2'
          /\ (List.length h1 <= fst r1)%nat /\ (List.length h2 <= fst r2)%nat)
  /\ (forall h1 h2 selected_parameter n T E tau,
        exists a1 h1' a2 h2',
          py_create_parameter_impact_plots selected_parameter n T E tau h1
          = Some (a1, h1')
          /\ py_create_parameter_impact_plots selected_parameter n T E tau h2
             = Some (a2, h2')
          /\ figure_result h1' a1 = figure_result h2' a2
          /\ figure_result h1' a1
             = Some (create_parameter_impact_plots selected_parameter
                       n T E tau)
          /\ preserved h1 h1' /\ preserved h2 h2'
          /\ (List.length h1 <= a1)%nat /\ (List.length h2 <= a2)%nat)
  /\ (forall h an aT aE atau n_range T_range E_range tau_range,
        holds_seq h an n_range -> holds_seq h aT T_range ->
        holds_seq h aE E_range -> holds_seq h atau tau_range ->
        exists r1 r2 h',
          (r1 <- py_find_best_parameters an aT aE atau ;;
           r2 <- py_find_best_parameters an aT aE atau ;;
           py_ret (r1, r2)) h = Some ((r1, r2), h')
          /\ search_result h' r1
             = Some (find_best_parameters n_range T_range E_range tau_range)
          /\ search_result h' r2 = search_result h' r1
          /\ fst r1 <> fst r2
          /\ preserved h h')
  /\ (forall h selected_parameter n T E tau,
        exists a1 a2 h',
          (a1 <- py_create_parameter_impact_plots selected_parameter n T E tau ;;
           a2 <- py_create_parameter_impact_plots selected_parameter n T E tau ;;
           py_ret (a1, a2)) h = Some ((a1, a2), h')
          /\ figure_result h' a1
             = Some (create_parameter_impact_plots selected_parameter
                       n T E tau)
          /\ figure_result h' a2 = figure_result h' a1
          /\ a1 <> a2
          /\ preserved h h').
Proof.
  split; [reflexivity|]. split; [|split; [|split]].
  - intros h1 h2 an aT aE atau bn bT bE btau n_range T_range E_range tau_range
           Han HaT HaE Hatau Hbn HbT HbE Hbtau.
    destruct (py_find_best_parameters_refines h1 an aT aE atau _ _ _ _
                Han HaT HaE Hatau) as (r1 & h1' & Hrun1 & Hres1 & Hp1 & Hf1).
    destruct (py_find_best_parameters_refines h2 bn bT bE btau _ _ _ _
                Hbn HbT HbE Hbtau) as (r2 & h2' & Hrun2 & Hres2 & Hp2 & Hf2).
    exists r1, h1', r2, h2'. rewrite Hres1, Hres2. repeat split; assumption.
  - intros h1 h2 selected_parameter n T E tau.
    destruct (py_create_parameter_impact_plots_refines h1 selected_parameter
                n T E tau) as (a1 & h1' & Hrun1 & Hres1 & Hp1 & Hf1).
    destruct (py_create_parameter_impact_plots_refines h2 selected_parameter
                n T E tau) as (a2 & h2' & Hrun2 & Hres2 & Hp2 & Hf2).
    exists a1, h1', a2, h2'. rewrite Hres1, Hres2. repeat split; assumption.
  - intros h an aT aE atau n_range T_range E_range tau_range
           Han HaT HaE Hatau.
    destruct (py_find_best_parameters_refines h an aT aE atau _ _ _ _
                Han HaT HaE Hatau)
      as (r1 & h1 & Hrun1 & Hres1 & [new1 ->] & Hf1).
    destruct (py_find_best_parameters_refines (h ++ new1) an aT aE atau
                n_range T_range E_range tau_range)
      as (r2 & h2 & Hrun2 & Hres2 & [new2 ->] & Hf2);
      try (now apply holds_seq_app).
    exists r1, r2, ((h ++ new1) ++ new2).
    split; [unfold py_bind; now rewrite Hrun1, Hrun2|].
    pose proof (search_result_bound _ _ _ Hres1) as Hb1.
    apply (search_result_app _ new2) in Hres1.
    rewrite Hres1, Hres2. repeat split.
    + lia.
    + exists (new1 ++ new2). now rewrite app_assoc.
  - intros h selected_parameter n T E tau.
    destruct (py_create_parameter_impact_plots_refines h selected_parameter
                n T E tau) as (a1 & h1 & Hrun1 & Hres1 & [new1 ->] & Hf1).
    destruct (py_create_parameter_impact_plots_refines (h ++ new1)
                selected_parameter n T E tau)
      as (a2 & h2 & Hrun2 & Hres2 & [new2 ->] & Hf2).
    exists a1, a2, ((h ++ new1) ++ new2).
    split; [unfold py_bind; now rewrite Hrun1, Hrun2|].
    pose proof (figure_result_bound _ _ _ Hres1) as Hb1.
    apply (figure_result_app _ new2) in Hres1.
    rewrite Hres1, Hres2. repeat split.
    + lia.
    + exists (new1 ++ new2). now rewrite app_assoc.
Qed.

(** A first call on a heap that holds the four ranges, and a second one on
    the heap the first has left. *)
Lemma calls_have_no_hidden_state_witness :
  exists r1 h1' r2 h2',
    py_find_best_parameters 0%nat 1%nat 2%nat 3%nat ranges_heap
    = Some (r1, h1')
    /\ py_find_best_parameters 0%nat 1%nat 2%nat 3%nat ranges_heap_after
       = Some (r2, h2')
    /\ search_result h1' r1 = search_result h2' r2
    /\ search_result h1' r1
       = Some (find_best_parameters [1e20; 2e20] [5000; 10000] [15; 20]
                 [0.05; 0.1])
    /\ preserved ranges_heap h1' /\ preserved ranges_heap_after h2'
    /\ (List.length ranges_heap <= fst r1)%nat
    /\ (List.length ranges_heap_after <= fst r2)%nat.
Proof.
  apply (proj1 (proj2 calls_have_no_hidden_state) ranges_heap
           ranges_heap_after 0%nat 1%nat 2%nat 3%nat 0%nat 1%nat 2%nat 3%nat);
    eexists; (split; [vm_compute; reflexivity | reflexivity]).
Defined.

(** * Further properties *)

(** ** More on binary64 values *)

Lemma SFeqb_of_not_ltb (a b : spec_float) :
  SFeqb a a = true -> SFeqb b b = true ->
  SFltb a b = false -> SFltb b a = false -> SFeqb a b = true.
Proof. sf_order. Qed.

Lemma eqb_of_not_ltb (a b : float) :
  is_number a = true -> is_number b = true ->
  (a <? b) = false -> (b <? a) = false -> (a =? b) = true.
Proof.
  unfold is_number. rewrite !ltb_spec, !FloatAxioms.eqb_spec.
  apply SFeqb_of_not_ltb.
Qed.

Lemma SFmul_comm (x y : spec_float) : SF64mul x y = SF64mul y x.
Proof.
  unfold SF64mul, SFmul.
  destruct x as [sx | sx | | sx mx ex], y as [sy | sy | | sy my ey];
    try reflexivity; try (now rewrite xorb_comm).
  now rewrite xorb_comm, Pos.mul_comm, Z.add_comm.
Qed.

Lemma float_mul_comm (x y : float) : x * y = y * x.
Proof. apply Prim2SF_inj. rewrite !mul_spec. apply SFmul_comm. Qed.

Lemma float_mul_nan_l (x : float) : nan * x = nan.
Proof. apply Prim2SF_inj. rewrite mul_spec, Prim2SF_nan. reflexivity. Qed.

Lemma float_mul_nan_r (x : float) : x * nan = nan.
Proof. rewrite float_mul_comm. apply float_mul_nan_l. Qed.

Lemma float_div_nan_l (x : float) : nan / x = nan.
Proof. apply Prim2SF_inj. rewrite div_spec, Prim2SF_nan. reflexivity. Qed.

Lemma float_div_nan_r (x : float) : x / nan = nan.
Proof.
  apply Prim2SF_inj. rewrite div_spec, Prim2SF_nan.
  now destruct (Prim2SF x).
Qed.

Lemma float_sub_nan_l (x : float) : nan - x = nan.
Proof. apply Prim2SF_inj. rewrite sub_spec, Prim2SF_nan. reflexivity. Qed.

Lemma float_sub_nan_r (x : float) : x - nan = nan.
Proof.
  apply Prim2SF_inj. rewrite sub_spec, Prim2SF_nan.
  now destruct (Prim2SF x).
Qed.

(** A finite value is a zero or a nonzero finite number. *)
Lemma is_finite_cases (x : float) :
  is_finite x = true ->
  (exists s, Prim2SF x = S754_zero s)
  \/ (exists s m e, Prim2SF x = S754_finite s m e).
Proof.
  unfold is_finite, is_nan, is_infinity.
  rewrite !FloatAxioms.eqb_spec, abs_spec, Prim2SF_infinity.
  destruct (Prim2SF x) as [s | [] | | s m e]; simpl;
    try discriminate; intros _.
  - left. now exists s.
  - right. now exists s, m, e.
Qed.

Lemma is_zero_cases (x : float) :
  is_zero x = true -> exists s, Prim2SF x = S754_zero s.
Proof.
  unfold is_zero. rewrite FloatAxioms.eqb_spec.
  change (Prim2SF zero) with (S754_zero false).
  destruct (Prim2SF x) as [s | [] | | [] m e]; simpl; try discriminate.
  intros _. now exists s.
Qed.

(** A number other than the two zeros is an infinity or a nonzero finite
    number. *)
Lemma nonzero_number_cases (x : float) :
  is_nan x = false -> is_zero x = false ->
  (exists s, Prim2SF x = S754_infinity s)
  \/ (exists s m e, Prim2SF x = S754_finite s m e).
Proof.
  unfold is_nan, is_zero. rewrite !FloatAxioms.eqb_spec.
  change (Prim2SF zero) with (S754_zero false).
  destruct (Prim2SF x) as [[] | s | | s m e]; simpl;
    try discriminate; intros _ _.
  - left. now exists s.
  - right. now exists s, m, e.
Qed.

(** ** The objective function, continued *)

(** X1: the density and the temperature enter [fusion] only through their
    product, so exchanging them changes nothing. *)
Theorem fusion_swap (n T E tau : float) :
  fusion n T E tau = fusion T n E tau.
Proof. unfold fusion. now rewrite (float_mul_comm n T). Qed.

Lemma fusion_nan_argument (n T E tau : float) :
  n = nan \/ T = nan \/ E = nan \/ tau = nan -> fusion n T E tau = nan.
Proof.
  unfold fusion. intros [-> | [-> | [-> | ->]]].
  - now rewrite !float_mul_nan_l, float_div_nan_l, float_sub_nan_l.
  - now rewrite !float_mul_nan_r, float_mul_nan_l, float_div_nan_l,
      float_sub_nan_l.
  - now rewrite float_mul_nan_r, float_sub_nan_l.
  - now rewrite float_div_nan_r, float_sub_nan_r.
Qed.

(** X2: a NaN in any of the four arguments makes the result NaN. *)
Theorem fusion_nan (n T E tau : float) :
  n = nan \/ T = nan \/ E = nan \/ tau = nan -> fusion n T E tau = nan.
Proof. apply fusion_nan_argument. Qed.

Lemma fusion_swap_eval (a b E tau : float) :
  eval (b, a, E, tau) = eval (a, b, E, tau).
Proof. unfold eval, fusion. now rewrite (float_mul_comm b a). Qed.

Lemma fusion_nan_witness : fusion 1e20 nan 17.6 0.1 = nan.
Proof. apply (fusion_nan 1e20 nan 17.6 0.1). right. left. reflexivity. Defined.

Lemma fusion_zero_product (n T E tau : float) (s : bool) :
  Prim2SF (n * T) = S754_zero s ->
  is_finite E = true -> is_nan tau = false -> is_zero tau = false ->
  (fusion n T E tau =? 0) = true.
Proof.
  intros Hz HE Hnan Hzero. unfold fusion.
  rewrite FloatAxioms.eqb_spec, sub_spec, mul_spec, div_spec, Hz.
  change (Prim2SF 0) with (S754_zero false).
  destruct (is_finite_cases E HE) as [[sE ->] | (sE & mE & eE & ->)];
    destruct (nonzero_number_cases tau Hnan Hzero)
      as [[st ->] | (st & mt & et & ->)];
    destruct s, sE, st; reflexivity.
Qed.

(** X3: with no particles, or at zero temperature, the net output is zero
    (of either sign) whenever the other of the two and [E] are finite and
    [tau] is a number other than zero. *)
Theorem fusion_zero (n T E tau : float) :
  (is_zero n = true /\ is_finite T = true)
  \/ (is_zero T = true /\ is_finite n = true) ->
  is_finite E = true -> is_nan tau = false -> is_zero tau = false ->
  (fusion n T E tau =? 0) = true.
Proof.
  intros Hz HE Hnan Hzero.
  assert (H : exists s, Prim2SF (n * T) = S754_zero s).
  { rewrite mul_spec.
    destruct Hz as [[Hn HT] | [HT Hn]].
    - apply is_zero_cases in Hn as [sn ->].
      destruct (is_finite_cases T HT) as [[sT ->] | (sT & mT & eT & ->)];
        simpl; eauto.
    - apply is_zero_cases in HT as [sT ->].
      destruct (is_finite_cases n Hn) as [[sn ->] | (sn & mn & en & ->)];
        simpl; eauto. }
  destruct H as [s Hs]. now apply (fusion_zero_product n T E tau s).
Qed.

Lemma fusion_zero_witness : (fusion 0 15000 17.6 0.1 =? 0) = true.
Proof.
  apply (fusion_zero 0 15000 17.6 0.1); try reflexivity.
  left. split; reflexivity.
Defined.

(** ** The grid search, continued *)

Lemma search_fold_number (pts : list point) (st : search_state) :
  is_number (max_output st) = true ->
  is_number (max_output (fold_left visit_point pts st)) = true.
Proof.
  intros Hst.
  destruct (search_fold pts st) as [[-> _] | (l1 & p & l2 & _ & -> & Hp & _)].
  - exact Hst.
  - simpl. now apply (ltb_numbers (max_output st)).
Qed.

(** A pass that starts from any state ends as the pass from the initial
    state does when that one ends strictly above the starting maximum, and
    leaves the starting state untouched otherwise. *)
Lemma search_fold_resume (pts : list point) (st : search_state) :
  fold_left visit_point pts st
  = if max_output st <? max_output (fold_left visit_point pts search_init)
    then fold_left visit_point pts search_init
    else st.
Proof.
  induction pts as [|q pts IH] using rev_ind.
  - simpl. now rewrite ltb_neg_infinity.
  - rewrite !fold_left_app. simpl.
    assert (Hnum : is_number
                     (max_output (fold_left visit_point pts search_init))
                   = true) by now apply search_fold_number.
    set (r := fold_left visit_point pts search_init) in *.
    rewrite IH, (visit_point_eq r).
    destruct (max_output st <? max_output r) eqn:Hsr.
    + rewrite visit_point_eq.
      destruct (max_output r <? eval q) eqn:Hrq; simpl.
      * now rewrite (ltb_trans _ _ _ Hsr Hrq).
      * now rewrite Hsr.
    + rewrite visit_point_eq.
      destruct (max_output r <? eval q) eqn:Hrq; simpl.
      * reflexivity.
      * rewrite Hsr.
        destruct (max_output st <? eval q) eqn:Hsq; [|reflexivity].
        assert (Hle : (eval q <=? max_output r) = true).
        { apply leb_total; try assumption.
          now apply (ltb_numbers (max_output st)). }
        rewrite (ltb_leb_trans _ _ _ Hsq Hle) in Hsr. discriminate.
Qed.

Lemma search_loops_app (a b T_range E_range tau_range : list float)
    (st : search_state) :
  search_loops (a ++ b) T_range E_range tau_range st
  = search_loops b T_range E_range tau_range
      (search_loops a T_range E_range tau_range st).
Proof. unfold search_loops. now rewrite fold_left_app. Qed.

(** X4: the search over a density range cut in two is the search over each
    part, combined by keeping the second result only when its value is
    strictly greater; so the parts can be searched apart and reduced from
    left to right, ties included. *)
Theorem find_best_parameters_app (a b T_range E_range tau_range : list float) :
  find_best_parameters (a ++ b) T_range E_range tau_range
  = better (find_best_parameters a T_range E_range tau_range)
           (find_best_parameters b T_range E_range tau_range).
Proof.
  unfold find_best_parameters, better. rewrite search_loops_app.
  rewrite (search_loops_grid b), search_fold_resume.
  rewrite <- (search_loops_grid b _ _ _ search_init). simpl.
  now destruct (max_output (search_loops a T_range E_range tau_range search_init)
                <? max_output
                     (search_loops b T_range E_range tau_range search_init)).
Qed.

(** X5: resuming the loops from any state: the running maximum never
    decreases, and the state either stays as it was or becomes that of a
    point of the product whose evaluation strictly exceeds the starting
    maximum. *)
Theorem search_loops_from_state
    (n_range T_range E_range tau_range : list float) (st : search_state) :
  let st' := search_loops n_range T_range E_range tau_range st in
  (max_output st' <? max_output st) = false
  /\ (st' = st
      \/ exists n T E tau,
           In n n_range /\ In T T_range /\ In E E_range /\ In tau tau_range
           /\ st' = mkSearch (fusion n T E tau) (params_dict n T E tau)
           /\ (max_output st <? fusion n T E tau) = true).
Proof.
  intros st'. subst st'. rewrite search_loops_grid.
  destruct (search_fold (grid n_range T_range E_range tau_range) st)
    as [[-> _] | (l1 & p & l2 & Hpts & -> & Hp & _)].
  - split; [apply ltb_irrefl | now left].
  - simpl. split.
    + now apply leb_false_ltb_false, ltb_leb_false.
    + right. destruct p as [[[n T] E] tau]. exists n, T, E, tau.
      assert (Hin : In (n, T, E, tau)
                       (grid n_range T_range E_range tau_range))
        by (rewrite Hpts; apply in_elt).
      apply in_grid in Hin as (Hn & HT & HE & Htau). auto 10.
Qed.

(** X6: the empty dict is returned exactly when no point of the product
    evaluates to more than negative infinity (in particular when a range is
    empty), and the value returned with it is negative infinity. *)
Theorem find_best_parameters_empty_iff
    (n_range T_range E_range tau_range : list float) :
  (fst (find_best_parameters n_range T_range E_range tau_range) = []
   <-> forall n T E tau,
         In n n_range -> In T T_range -> In E E_range -> In tau tau_range ->
         (neg_infinity <? fusion n T E tau) = false)
  /\ (fst (find_best_parameters n_range T_range E_range tau_range) = [] ->
      snd (find_best_parameters n_range T_range E_range tau_range)
      = neg_infinity).
Proof.
  destruct (find_best_parameters_cases n_range T_range E_range tau_range)
    as [[-> Hno] | (l1 & p & l2 & Hpts & -> & Hp & _)]; simpl.
  - split; [|reflexivity]. split; [|reflexivity].
    intros _ n T E tau Hn HT HE Htau.
    apply (Hno (n, T, E, tau)). apply in_grid. auto.
  - split.
    + split.
      * intros H. now apply point_dict_nonempty in H.
      * intros H. destruct p as [[[n T] E] tau].
        assert (Hin : In (n, T, E, tau)
                         (grid n_range T_range E_range tau_range))
          by (rewrite Hpts; apply in_elt).
        apply in_grid in Hin as (Hn & HT & HE & Htau).
        simpl in Hp. rewrite (H n T E tau) in Hp; auto. discriminate.
    + intros H. now apply point_dict_nonempty in H.
Qed.

(** The value a pass from the initial state ends with depends only on which
    evaluations occur in the list, up to the equality [==] of floats. *)
Lemma search_value_same_evals (pts1 pts2 : list point) :
  (forall q1, In q1 pts1 -> exists q2, In q2 pts2 /\ eval q2 = eval q1) ->
  (forall q2, In q2 pts2 -> exists q1, In q1 pts1 /\ eval q1 = eval q2) ->
  (max_output (fold_left visit_point pts1 search_init)
   =? max_output (fold_left visit_point pts2 search_init)) = true.
Proof.
  intros H12 H21.
  destruct (search_fold pts1 search_init)
    as [[-> Hno1] | (k1 & p1 & k2 & Hpts1 & -> & Hp1 & Hk1 & Hk2)];
    destruct (search_fold pts2 search_init)
      as [[-> Hno2] | (l1 & p2 & l2 & Hpts2 & -> & Hp2 & Hl1 & Hl2)];
    simpl in *.
  - reflexivity.
  - destruct (H21 p2) as (q1 & Hq1 & Heq); [rewrite Hpts2; apply in_elt|].
    rewrite <- Heq, (Hno1 q1 Hq1) in Hp2. discriminate.
  - destruct (H12 p1) as (q2 & Hq2 & Heq); [rewrite Hpts1; apply in_elt|].
    rewrite <- Heq, (Hno2 q2 Hq2) in Hp1. discriminate.
  - destruct (H12 p1) as (q2 & Hq2 & Heq2); [rewrite Hpts1; apply in_elt|].
    destruct (H21 p2) as (q1 & Hq1 & Heq1); [rewrite Hpts2; apply in_elt|].
    apply eqb_of_not_ltb.
    + now apply (ltb_numbers neg_infinity).
    + now apply (ltb_numbers neg_infinity).
    + rewrite <- Heq1. apply (kept_point_maximal k1 k2); try assumption.
      now rewrite <- Hpts1.
    + rewrite <- Heq2. apply (kept_point_maximal l1 l2); try assumption.
      now rewrite <- Hpts2.
Qed.

(** X7: the best value does not depend on the order of the values in the
    ranges nor on how often each occurs: two calls whose ranges hold the
    same values return values equal as floats ([==]; the points may
    differ where evaluations tie). *)
Theorem find_best_parameters_value_same_values
    (n_range T_range E_range tau_range
     n_range' T_range' E_range' tau_range' : list float) :
  (forall x, In x n_range <-> In x n_range') ->
  (forall x, In x T_range <-> In x T_range') ->
  (forall x, In x E_range <-> In x E_range') ->
  (forall x, In x tau_range <-> In x tau_range') ->
  (snd (find_best_parameters n_range T_range E_range tau_range)
   =? snd (find_best_parameters n_range' T_range' E_range' tau_range')) = true.
Proof.
  intros Hn HT HE Htau. unfold find_best_parameters. simpl.
  rewrite !search_loops_grid.
  apply search_value_same_evals; intros [[[n T] E] tau] Hq;
    exists (n, T, E, tau); (split; [|reflexivity]);
    apply in_grid in Hq as (Hqn & HqT & HqE & Hqtau); apply in_grid;
    repeat split;
    first [now apply Hn | now apply HT | now apply HE | now apply Htau].
Qed.

Lemma find_best_parameters_value_same_values_witness :
  (snd (find_best_parameters [1e20; 2e20] [5000; 10000] [15; 20] [0.05; 0.1])
   =? snd (find_best_parameters [2e20; 1e20; 2e20] [10000; 5000] [20; 15]
             [0.1; 0.05; 0.05])) = true.
Proof.
  apply find_best_parameters_value_same_values; intros x; simpl; tauto.
Defined.

(** X8: exchanging the density range and the temperature range leaves the
    best value unchanged (up to [==]). *)
Theorem find_best_parameters_swap_ranges
    (n_range T_range E_range tau_range : list float) :
  (snd (find_best_parameters T_range n_range E_range tau_range)
   =? snd (find_best_parameters n_range T_range E_range tau_range)) = true.
Proof.
  unfold find_best_parameters. simpl. rewrite !search_loops_grid.
  apply search_value_same_evals; intros [[[a b] E] tau] Hq;
    exists (b, a, E, tau); (split; [|apply fusion_swap_eval]);
    apply in_grid in Hq as (Ha & Hb & HE & Htau); apply in_grid; auto.
Qed.

(** X9: a point with a NaN coordinate is never returned: whatever the
    ranges hold, the four values of a returned dict are numbers. *)
Theorem find_best_parameters_no_nan_point
    (n_range T_range E_range tau_range : list float) (n T E tau : float) :
  fst (find_best_parameters n_range T_range E_range tau_range)
  = params_dict n T E tau ->
  n <> nan /\ T <> nan /\ E <> nan /\ tau <> nan.
Proof.
  intros Hd.
  destruct (find_best_parameters_cases n_range T_range E_range tau_range)
    as [[Hnone _] | (l1 & p & l2 & _ & Hbest & Hp & _)].
  - rewrite Hnone in Hd. discriminate.
  - rewrite Hbest in Hd. destruct p as [[[n' T'] E'] tau']. simpl in *.
    inversion Hd; subst n' T' E' tau'.
    assert (Hnot : ~ (n = nan \/ T = nan \/ E = nan \/ tau = nan)).
    { intros H. rewrite (fusion_nan_argument n T E tau H), ltb_nan in Hp.
      discriminate. }
    tauto.
Qed.

Lemma find_best_parameters_no_nan_point_witness :
  1 <> nan /\ 2 <> nan /\ 3 <> nan /\ 4 <> nan.
Proof.
  apply (find_best_parameters_no_nan_point [nan; 1] [2] [nan; 3] [4; nan]).
  vm_compute. reflexivity.
Defined.

Lemma length_flat_map_const {A B : Type} (f : A -> list B) (l : list A)
    (k : nat) :
  (forall x, In x l -> List.length (f x) = k) ->
  List.length (flat_map f l) = (List.length l * k)%nat.
Proof.
  induction l as [|x l IH]; intros H; simpl; [reflexivity|].
  rewrite length_app, (H x), IH.
  - reflexivity.
  - intros y Hy. apply H. now right.
  - now left.
Qed.

Lemma length_grid (n_range T_range E_range tau_range : list float) :
  List.length (grid n_range T_range E_range tau_range)
  = (List.length n_range * (List.length T_range
       * (List.length E_range * List.length tau_range)))%nat.
Proof.
  unfold grid.
  apply length_flat_map_const; intros n _.
  apply length_flat_map_const; intros T _.
  apply length_flat_map_const; intros E _.
  apply length_map.
Qed.

(** X10: the four loops are exhaustive: from any state they amount to one
    pass of lines 21-24 over the points of the Cartesian product, each
    combination of entries once, [len(n_range) * len(T_range) * len(E_range)
    * len(tau_range)] evaluations in all. *)
Theorem search_loops_exhaustive
    (n_range T_range E_range tau_range : list float) (st : search_state) :
  search_loops n_range T_range E_range tau_range st
  = fold_left (fun st '(n, T, E, tau) => visit st n T E tau)
              (grid n_range T_range E_range tau_range) st
  /\ List.length (grid n_range T_range E_range tau_range)
     = (List.length n_range * (List.length T_range
          * (List.length E_range * List.length tau_range)))%nat
  /\ (forall n T E tau,
        In (n, T, E, tau) (grid n_range T_range E_range tau_range)
        <-> In n n_range /\ In T T_range /\ In E E_range /\ In tau tau_range).
Proof.
  split; [apply search_loops_grid|].
  split; [apply length_grid|]. intros n T E tau. apply in_grid.
Qed.

(** X11: searching again over the returned point alone gives the same
    result: the best point and its value are a fixed point of the search. *)
Theorem find_best_parameters_again
    (n_range T_range E_range tau_range : list float) (n T E tau : float) :
  fst (find_best_parameters n_range T_range E_range tau_range)
  = params_dict n T E tau ->
  find_best_parameters [n] [T] [E] [tau]
  = find_best_parameters n_range T_range E_range tau_range.
Proof.
  intros Hd.
  destruct (find_best_parameters_cases n_range T_range E_range tau_range)
    as [[Hnone _] | (l1 & p & l2 & _ & Hbest & Hp & _)].
  - rewrite Hnone in Hd. discriminate.
  - rewrite Hbest in *. destruct p as [[[n' T'] E'] tau']. simpl in *.
    inversion Hd; subst n' T' E' tau'.
    unfold find_best_parameters, search_loops, visit. simpl.
    now rewrite Hp.
Qed.

Lemma find_best_parameters_again_witness :
  find_best_parameters [2e20] [10000] [20] [0.1]
  = find_best_parameters [1e20; 2e20] [5000; 10000] [15; 20] [0.05; 0.1].
Proof.
  apply (find_best_parameters_again [1e20; 2e20] [5000; 10000] [15; 20]
           [0.05; 0.1] 2e20 10000 20 0.1).
  vm_compute. reflexivity.
Defined.

(** X12: enlarging the ranges never lowers the best value: when every value
    of each range of one call occurs in the corresponding range of another,
    the value of the first is less than or equal to that of the second. *)
Theorem find_best_parameters_monotone
    (n_range T_range E_range tau_range
     n_range' T_range' E_range' tau_range' : list float) :
  incl n_range n_range' -> incl T_range T_range' ->
  incl E_range E_range' -> incl tau_range tau_range' ->
  (snd (find_best_parameters n_range T_range E_range tau_range)
   <=? snd (find_best_parameters n_range' T_range' E_range' tau_range'))
  = true.
Proof.
  intros Hn HT HE Htau.
  assert (Hsub : forall q, In q (grid n_range T_range E_range tau_range) ->
                           In q (grid n_range' T_range' E_range' tau_range')).
  { intros [[[n T] E] tau] Hq. apply in_grid in Hq as (H1 & H2 & H3 & H4).
    apply in_grid. auto. }
  destruct (find_best_parameters_cases n_range T_range E_range tau_range)
    as [[-> _] | (k1 & p1 & k2 & Hpts1 & -> & Hp1 & _)];
    destruct (find_best_parameters_cases n_range' T_range' E_range' tau_range')
      as [[-> Hno2] | (l1 & p2 & l2 & Hpts2 & -> & Hp2 & Hl1 & Hl2)];
    simpl.
  - reflexivity.
  - apply leb_total; try reflexivity.
    + now apply (ltb_numbers neg_infinity).
    + apply ltb_neg_infinity.
  - rewrite (Hno2 p1) in Hp1; [discriminate|].
    apply Hsub. rewrite Hpts1. apply in_elt.
  - apply leb_total.
    + now apply (ltb_numbers neg_infinity).
    + now apply (ltb_numbers neg_infinity).
    + apply (kept_point_maximal l1 l2); try assumption.
      rewrite <- Hpts2. apply Hsub. rewrite Hpts1. apply in_elt.
Qed.

Lemma find_best_parameters_monotone_witness :
  (snd (find_best_parameters [1e20] [5000; 10000] [15] [0.05])
   <=? snd (find_best_parameters [1e20; 2e20] [5000; 10000] [15; 20]
              [0.05; 0.1])) = true.
Proof.
  apply find_best_parameters_monotone; intros x; simpl; tauto.
Defined.

(** ** The ranges built by [linspace] *)

Lemma length_set_last (y : list float) (v : float) :
  List.length (set_last y v) = List.length y.
Proof.
  induction y as [|a [|b y] IH]; simpl in *; [reflexivity | reflexivity |].
  now rewrite IH.
Qed.

Lemma in_set_last (y : list float) (v : float) :
  y <> [] -> In v (set_last y v).
Proof.
  induction y as [|a [|b y] IH]; intros H.
  - now contradiction H.
  - now left.
  - right. apply IH. discriminate.
Qed.

Lemma length_arange (num : nat) : List.length (arange num) = num.
Proof. unfold arange. now rewrite length_map, length_seq. Qed.

(** The list [linspace] holds before the last entry is overwritten. *)
Lemma linspace_shape (start stop : float) (num : nat) :
  exists g : float -> float,
    linspace start stop num
    = if (1 <? num)%nat then set_last (map g (arange num)) stop
      else map g (arange num).
Proof.
  unfold linspace.
  destruct (0 <? of_uint63 (Uint63.of_Z (Z.of_nat (num - 1)))).
  - destruct ((stop - start) / of_uint63 (Uint63.of_Z (Z.of_nat (num - 1)))
              =? 0);
      rewrite map_map; eexists; reflexivity.
  - rewrite map_map; eexists; reflexivity.
Qed.

Lemma length_linspace (start stop : float) (num : nat) :
  List.length (linspace start stop num) = num.
Proof.
  destruct (linspace_shape start stop num) as [g ->].
  destruct (1 <? num)%nat;
    now rewrite ?length_set_last, length_map, length_arange.
Qed.

Lemma in_linspace_stop (start stop : float) (num : nat) :
  (2 <= num)%nat -> In stop (linspace start stop num).
Proof.
  intros Hnum. destruct (linspace_shape start stop num) as [g ->].
  destruct (Nat.ltb_spec 1 num) as [_ | H]; [|lia].
  apply in_set_last. intros Hnil.
  apply (f_equal (@List.length float)) in Hnil.
  rewrite length_map, length_arange in Hnil. simpl in Hnil. lia.
Qed.

(** ** The sweep, continued *)

(** X13: whatever text the selector is, the figure is well formed and is
    the sweep of one of the four parameters: the x values are the 100
    multipliers, there are as many outputs, the outputs and the x axis label
    are those of one parameter [p], the y axis is labelled
    "Energy Output" and the title is "Energy Output vs. " followed by
    the selector. *)
Theorem create_parameter_impact_plots_shape (selected_parameter : string)
    (n T E tau : float) :
  let fig := create_parameter_impact_plots selected_parameter n T E tau in
  scatter_x fig = param_range
  /\ List.length (scatter_x fig) = 100%nat
  /\ List.length (scatter_y fig) = 100%nat
  /\ title fig = ("Energy Output vs. " ++ selected_parameter)%string
  /\ yaxis_title fig = "Energy Output"%string
  /\ exists p,
       scatter_y fig = map (scaled_output p n T E tau) param_range
       /\ xaxis_title fig = (selector_name p ++ " Multiplier")%string.
Proof.
  intros fig. subst fig. unfold create_parameter_impact_plots.
  destruct param_range_facts as (Hlen & _).
  destruct (String.eqb selected_parameter "Particle Density");
    [|destruct (String.eqb selected_parameter "Temperature");
      [|destruct (String.eqb selected_parameter "Energy Release")]];
    cbn [scatter_x scatter_y title xaxis_title yaxis_title];
    rewrite append_loop_map, app_nil_l, length_map, Hlen;
    repeat split;
    [exists ParticleDensity | exists Temperature | exists EnergyRelease
     | exists ConfinementTime]; split; reflexivity.
Qed.

(** X14: the Particle Density sweep at [n], [T] and the Temperature sweep
    at [T], [n] plot the same outputs. *)
Theorem sweep_density_temperature (n T E tau : float) :
  scatter_y (create_parameter_impact_plots "Particle Density" n T E tau)
  = scatter_y (create_parameter_impact_plots "Temperature" T n E tau).
Proof.
  unfold create_parameter_impact_plots.
  cbn [String.eqb Ascii.eqb Bool.eqb scatter_y].
  rewrite !append_loop_map. cbn [app].
  apply map_ext. intros val. apply (fusion_swap_eval T (val * n) E tau).
Qed.

(** ** The pages *)

(** X15: the Optimization page searches [10 * 10 * 10 * 10] points, the
    combination of the four upper slider ends among them; so when the
    objective at that combination exceeds negative infinity the page shows
    a point, of the four ranges, whose value is at least the objective
    there. *)
Theorem optimization_page_upper_ends
    (n_min n_max T_min T_max E_min E_max tau_min tau_max : float) :
  let n_range := linspace (n_min * 1e20) (n_max * 1e20) 10 in
  let T_range := linspace T_min T_max 10 in
  let E_range := linspace E_min E_max 10 in
  let tau_range := linspace tau_min tau_max 10 in
  let top := fusion (n_max * 1e20) T_max E_max tau_max in
  List.length (grid n_range T_range E_range tau_range)
  = (10 * (10 * (10 * 10)))%nat
  /\ In (n_max * 1e20, T_max, E_max, tau_max)
        (grid n_range T_range E_range tau_range)
  /\ ((neg_infinity <? top) = true ->
      exists n T E tau,
        optimization_page n_min n_max T_min T_max E_min E_max tau_min tau_max
        = (params_dict n T E tau, fusion n T E tau)
        /\ In n n_range /\ In T T_range /\ In E E_range /\ In tau tau_range
        /\ (top <=? fusion n T E tau) = true).
Proof.
  intros n_range T_range E_range tau_range top.
  assert (Hin : In (n_max * 1e20, T_max, E_max, tau_max)
                   (grid n_range T_range E_range tau_range)).
  { apply in_grid. repeat split; apply in_linspace_stop; lia. }
  split; [|split; [exact Hin|]].
  - rewrite length_grid. unfold n_range, T_range, E_range, tau_range.
    now rewrite !length_linspace.
  - intros Htop. unfold optimization_page.
    fold n_range T_range E_range tau_range.
    destruct (find_best_parameters_cases n_range T_range E_range tau_range)
      as [[_ Hno] | (l1 & p & l2 & Hpts & -> & Hp & Hl1 & Hl2)].
    + specialize (Hno _ Hin). simpl in Hno. fold top in Hno.
      rewrite Hno in Htop. discriminate.
    + assert (Hmax : (eval p <? top) = false).
      { apply (kept_point_maximal l1 l2 p
                 (n_max * 1e20, T_max, E_max, tau_max)); try assumption.
        now rewrite <- Hpts. }
      assert (Hp_in : In p (grid n_range T_range E_range tau_range))
        by (rewrite Hpts; apply in_elt).
      destruct p as [[[n T] E] tau]. apply in_grid in Hp_in.
      exists n, T, E, tau. simpl in *.
      split; [reflexivity|]. repeat split; try tauto.
      apply leb_total; try assumption.
      * now apply (ltb_numbers neg_infinity).
      * now apply (ltb_numbers neg_infinity).
Qed.

Lemma optimization_page_upper_ends_witness :
  exists n T E tau,
    optimization_page 1 5 5000 15000 15 20 0.05 0.2
    = (params_dict n T E tau, fusion n T E tau)
    /\ In n (linspace (1 * 1e20) (5 * 1e20) 10)
    /\ In T (linspace 5000 15000 10)
    /\ In E (linspace 15 20 10)
    /\ In tau (linspace 0.05 0.2 10)
    /\ (fusion (5 * 1e20) 15000 20 0.2 <=? fusion n T E tau) = true.
Proof.
  apply (optimization_page_upper_ends 1 5 5000 15000 15 20 0.05 0.2).
  reflexivity.
Defined.

(** X16: on the Parameter Impact Analysis page, whichever of the four
    entries is selected, the plot holds 100 outputs, none of them NaN or
    infinite, and they increase strictly with the multiplier. *)
Theorem impact_page_plots (p : parameter) :
  List.length (scatter_y (impact_page p)) = 100%nat
  /\ all_finite (scatter_y (impact_page p)) = true
  /\ strictly_ascending (scatter_y (impact_page p)) = true.
Proof. destruct p; repeat split; vm_compute; reflexivity. Qed.
